(** * homebridge-melcloud-control: the platform's [didFinishLaunching] handler

    A shallow embedding of [index.js].  The handler walks the configured
    accounts, validates each one, connects it to the cloud, reads the device
    list, starts the impulse generator and then starts one controller per
    configured device that the cloud knows.

    The cloud session ([melcloud.js]) and the three controllers
    ([deviceata.js], [deviceatw.js], [deviceerv.js]) are collaborators: what
    they return, throw and emit is taken as a parameter of the model
    (Section [Platform]).  Everything the handler itself does to the outside
    world is recorded, in order, as a list of [effect]s. *)

From Stdlib Require Import List String ZArith Bool Lia.
Import ListNotations.
Local Open Scope string_scope.
Local Open Scope list_scope.

(** String concatenation, as written by the template literals. *)
Local Infix "^^" := String.append (at level 60, right associativity).

(** ** JavaScript values that the handler reads from the configuration *)

(** A property that holds a string, or is absent ([None] is [undefined]). *)
Definition jsstring := option string.

(** [!v] is [negb (truthy v)]: [undefined] and the empty string are falsy. *)
Definition truthy (v : jsstring) : bool :=
  match v with
  | Some s => negb (s =? "")
  | None => false
  end.

(** [`${v}`] *)
Definition ToString (v : jsstring) : string :=
  match v with
  | Some s => s
  | None => "undefined"
  end.

Definition jsstring_eqb (a b : jsstring) : bool :=
  match a, b with
  | Some s, Some t => s =? t
  | None, None => true
  | _, _ => false
  end.

(** [Array.prototype.includes] on an array of such values. *)
Definition includes (l : list jsstring) (v : jsstring) : bool :=
  existsb (jsstring_eqb v) l.

(** Numbers: the configuration holds whole numbers; arithmetic on an absent
    property gives [NaN]. *)
Inductive number := NaN | Num (z : Z).

Definition ToNumber (v : option Z) : number :=
  match v with
  | Some z => Num z
  | None => NaN
  end.

Definition mul (a b : number) : number :=
  match a, b with
  | Num x, Num y => Num (x * y)
  | _, _ => NaN
  end.

(** [a > b]; every comparison with [NaN] is false. *)
Definition gt (a b : number) : bool :=
  match a, b with
  | Num x, Num y => (y <? x)%Z
  | _, _ => false
  end.

Definition truthy_number (a : number) : bool :=
  match a with
  | Num z => negb (z =? 0)%Z
  | NaN => false
  end.

(** [a || b] on numbers. *)
Definition or_number (a b : number) : number :=
  if truthy_number a then a else b.

(** [a ?? b]: the left operand unless it is [null] or [undefined]. *)
Definition nullish {A} (a : option A) (b : A) : A :=
  match a with
  | Some v => v
  | None => b
  end.

(** A device id, as the configuration and the cloud give it: a number or a
    string.  [===] never identifies a number with a string. *)
Inductive prim := PNum (z : Z) | PStr (s : string).

Definition strict_eq (a b : prim) : bool :=
  match a, b with
  | PNum x, PNum y => (x =? y)%Z
  | PStr s, PStr t => s =? t
  | _, _ => false
  end.

(** ** JSON objects, for the parts of the configuration the handler only copies *)

#[local] Unset Elimination Schemes.
Inductive json :=
| JNull
| JBool (b : bool)
| JNum (z : Z)
| JStr (s : string)
| JArr (l : list json)
| JObj (l : list (string * json)).
#[local] Set Elimination Schemes.

(** An object as its own properties in insertion order. *)
Definition obj := list (string * json).

Fixpoint obj_get (k : string) (o : obj) : option json :=
  match o with
  | [] => None
  | (k', v) :: o' => if k' =? k then Some v else obj_get k o'
  end.

(** [o[k] = v]: an existing property keeps its place, a new one goes last. *)
Fixpoint obj_set (k : string) (v : json) (o : obj) : obj :=
  match o with
  | [] => [(k, v)]
  | (k', v') :: o' => if k' =? k then (k, v) :: o' else (k', v') :: obj_set k v o'
  end.

(** [{...into, ...o}]: the properties of [o] are copied one by one. *)
Definition spread (o : obj) (into : obj) : obj :=
  fold_left (fun acc kv => obj_set (fst kv) (snd kv) acc) o into.

(** [{...m}] where [m] may be [undefined]: spreading [undefined] copies nothing. *)
Definition spread_opt (m : option obj) : obj :=
  match m with
  | Some o => spread o []
  | None => []
  end.

(** ** Configuration *)

Module Device.
(** One entry of [ataDevices], [atwDevices] or [ervDevices]. *)
Record t := {
  id : prim;
  name : string;
  typeString : string;
  displayMode : option Z
}.
End Device.
Definition device : Type := Device.t.

(** One entry of [config.accounts].  [others] are the properties that
    [index.js] never reads and only hands on to its collaborators. *)
Record account := {
  name : jsstring;
  user : jsstring;
  passwd : jsstring;
  language : jsstring;
  enableDebugMode : option bool;
  refreshInterval : option Z;
  deviceRefreshInterval : option Z;
  mqtt : option obj;
  ataDevices : option (list device);
  atwDevices : option (list device);
  ervDevices : option (list device);
  others : obj
}.

(** ** What the cloud and the controllers give back *)

Inductive result (A : Type) :=
| Ok (a : A)
| Throw (e : string).
Arguments Ok {A} a.
Arguments Throw {A} e.

(** What [melCloud.connect()] resolves to. *)
Record response := {
  accountInfo : json;
  contextKey : string;
  useFahrenheit : bool
}.

(** An entry of the array that [melCloud.chackDevicesList] resolves to. *)
Record clouddevice := {
  DeviceID : prim;
  attributes : obj
}.

(** Events a [MelCloud] instance emits. *)
Inductive melcloud_event :=
| mc_success (message : string)
| mc_message (message : string)
| mc_debug (debug : string)
| mc_warn (warn : string)
| mc_error (error : string).

(** Events a device controller emits. *)
Inductive device_event :=
| publishAccessory (accessory : string)
| devInfo (devInfo : string)
| dev_success (message : string)
| dev_message (message : string)
| dev_debug (debug : string)
| dev_warn (warn : string)
| dev_error (error : string).

(** A call of a cloud method: the events emitted while it runs, then how it
    settles. *)
Definition call (A : Type) : Type := list melcloud_event * result A.

(** [new DeviceXxx(...)] followed by [await controller.start()]. *)
Inductive controller_run :=
| ConstructorThrows (e : string)
| Constructed (emitted : list device_event) (start : result unit).

Inductive devtype := ATA | ATW | ERV.

Definition label (t : devtype) : string :=
  match t with
  | ATA => "ATA"
  | ATW => "ATW"
  | ERV => "ERV"
  end.

(** ** Effects *)

Record timer := {
  timer_name : string;
  sampling : number
}.

Inductive level := log_info | log_warn | log_error | log_success.

(** What the handler does, in the order it does it. *)
Inductive effect :=
| Log (l : level) (message : string)
| AccountsNamePush (accountName : jsstring)
| NewMelCloud (user passwd language : jsstring)
              (accountFile buildingsFile devicesFile : string)
              (enableDebugMode : bool)
| Connect (accountName : string)
| ChackDevicesList (accountName : string) (contextKey : string)
| ImpulseGeneratorStart (accountName : string) (timers : list timer)
| NewDevice (t : devtype) (accountName : string) (d : device)
            (deviceRefreshInterval : number) (useFahrenheit : bool)
  (* the constructor of a controller is called *)
| Start (t : devtype) (accountName : string) (d : device)
| PublishExternalAccessories (pluginName : string) (accessories : list string).

(** How one pass through the body of the account loop ends: at its end (the
    loop goes on) or at a [return] (the handler ends). *)
Inductive signal := Next | Return.

(** ** The collaborators

    What [index.js] imports or is handed, and does not define itself. *)
Record world := {
  (** [PluginName], from [constants.js]. *)
  PluginName : string;
  (** [join(api.user.storagePath(), 'melcloud')] *)
  prefDir : string;
  (** [JSON.stringify(value, null, 2)] on an account object. *)
  JSON_stringify : account -> string;
  (** How [`${error}`] renders the [TypeError] of a [for...of] over a value
      that is not iterable. *)
  not_iterable : string;
  (** [melCloud.connect()] for the session of an account. *)
  connect : account -> call response;
  (** [melCloud.chackDevicesList(contextKey)] for the session of an account. *)
  chackDevicesList : account -> string -> call (list clouddevice);
  (** The constructor and the [start] of the controller of a device. *)
  controller : devtype -> account -> device -> controller_run
}.

(** ** The handler *)

Section Platform.

Variable w : world.

(** The listeners of lines 78-92. *)
Definition melcloud_on (accountName : string) (ev : melcloud_event) : list effect :=
  match ev with
  | mc_success message => [Log log_success ("Account " ^^ accountName ^^ ", " ^^ message)]
  | mc_message message => [Log log_info ("Account " ^^ accountName ^^ ", " ^^ message)]
  | mc_debug debug => [Log log_info ("Account " ^^ accountName ^^ ", debug: " ^^ debug)]
  | mc_warn warn => [Log log_warn ("Account " ^^ accountName ^^ ", " ^^ warn)]
  | mc_error error => [Log log_error ("Account " ^^ accountName ^^ ", " ^^ error ^^ ".")]
  end.

(** The listeners of lines 121-144 (and 166-189, 211-234). *)
Definition device_on (accountName deviceTypeText deviceName : string)
           (ev : device_event) : list effect :=
  match ev with
  | publishAccessory accessory =>
      [PublishExternalAccessories (PluginName w) [accessory];
       Log log_success (accountName ^^ ", " ^^ deviceTypeText ^^ " " ^^ deviceName
                        ^^ ", published as external accessory.")]
  | devInfo i => [Log log_info i]
  | dev_success message => [Log log_success (deviceTypeText ^^ ", " ^^ deviceName ^^ ", " ^^ message)]
  | dev_message message => [Log log_info (deviceTypeText ^^ ", " ^^ deviceName ^^ ", " ^^ message)]
  | dev_debug debug => [Log log_info (deviceTypeText ^^ ", " ^^ deviceName ^^ ", debug: " ^^ debug)]
  | dev_warn warn => [Log log_warn (deviceTypeText ^^ ", " ^^ deviceName ^^ ", " ^^ warn)]
  | dev_error error => [Log log_error (deviceTypeText ^^ ", " ^^ deviceName ^^ ", " ^^ error)]
  end.

(** [devices.some(dev => dev.DeviceID === deviceId)] *)
Definition deviceExistInMelCloud (devices : list clouddevice) (deviceId : prim) : bool :=
  existsb (fun dev => strict_eq (DeviceID dev) deviceId) devices.

(** [device.displayMode > 0 ?? false]: the comparison binds tighter than
    [??], and its result is never nullish. *)
Definition displayMode (d : device) : bool :=
  nullish (Some (gt (ToNumber (Device.displayMode d)) (Num 0))) false.

(** The test of lines 114-116, negated: the device is not skipped. *)
Definition dispatched (devices : list clouddevice) (d : device) : bool :=
  negb (negb (deviceExistInMelCloud devices (Device.id d)) || negb (displayMode d)).

Section Dispatch.
(** What the three loops close over. *)
Variable t : devtype.
Variable a : account.
Variable accountName : string.
Variable devices : list clouddevice.
Variable deviceRefresh : number.
Variable fahrenheit : bool.

(** Lines 118-146: the controller of one device that is not skipped. *)
Definition start_device (d : device) : list effect * result unit :=
  let deviceName := Device.name d in
  let deviceTypeText := Device.typeString d in
  let new := NewDevice t accountName d deviceRefresh fahrenheit in
  match controller w t a d with
  | ConstructorThrows e => ([new], Throw e)
  | Constructed emitted started =>
      (new :: Start t accountName d
           :: flat_map (device_on accountName deviceTypeText deviceName) emitted,
       started)
  end.

(** The body of the loop, lines 110-146. *)
Definition loop_body (d : device) : list effect * result unit :=
  if negb (deviceExistInMelCloud devices (Device.id d)) || negb (displayMode d)
  then ([], Ok tt)
  else start_device d.

(** [for (const device of ds) { ... }]: a throw leaves the loop. *)
Fixpoint for_of (ds : list device) : list effect * result unit :=
  match ds with
  | [] => ([], Ok tt)
  | d :: rest =>
      match loop_body d with
      | (here, Ok _) => let (later, r) := for_of rest in (here ++ later, r)
      | (here, Throw e) => (here, Throw e)
      end
  end.

(** Lines 108-150: [try { for ... } catch (error) { log.error(...) }].
    An absent list is not iterable. *)
Definition try_dispatch (ds : option (list device)) : list effect :=
  let (done, r) :=
    match ds with
    | Some l => for_of l
    | None => ([], Throw (not_iterable w))
    end in
  match r with
  | Ok _ => done
  | Throw e =>
      done ++ [Log log_error ("Account: " ^^ accountName ^^ ", " ^^ label t
                              ^^ " did finish launching error: " ^^ e)]
  end.
End Dispatch.

(** Lines 72-73. *)
Definition refreshInterval_ms (a : account) : number :=
  or_number (mul (ToNumber (refreshInterval a)) (Num 1000)) (Num 120000).
Definition deviceRefreshInterval_ms (a : account) : number :=
  or_number (mul (ToNumber (deviceRefreshInterval a)) (Num 1000)) (Num 5000).

(** Line 104. *)
Definition timers (a : account) : list timer :=
  [{| timer_name := "checkDevicesList"; sampling := refreshInterval_ms a |}].

(** Lines 107-240: the three loops, one after the other. *)
Definition dispatch_all (a : account) (accountName : string)
           (devices : list clouddevice) (fahrenheit : bool) : list effect :=
  try_dispatch ATA a accountName devices (deviceRefreshInterval_ms a) fahrenheit (ataDevices a)
  ++ try_dispatch ATW a accountName devices (deviceRefreshInterval_ms a) fahrenheit (atwDevices a)
  ++ try_dispatch ERV a accountName devices (deviceRefreshInterval_ms a) fahrenheit (ervDevices a).

(** Lines 76-240: the block of the outer [try]. *)
Definition startup (a : account) : list effect * result unit :=
  let accountName := ToString (name a) in
  let accountFile := prefDir w ^^ "/" ^^ accountName ^^ "_Account" in
  let buildingsFile := prefDir w ^^ "/" ^^ accountName ^^ "_Buildings" in
  let devicesFile := prefDir w ^^ "/" ^^ accountName ^^ "_Devices" in
  let created :=
    [NewMelCloud (user a) (passwd a) (language a) accountFile buildingsFile devicesFile
                 (nullish (enableDebugMode a) false);
     Connect accountName] in
  match connect w a with
  | (emitted, Throw e) =>
      (created ++ flat_map (melcloud_on accountName) emitted, Throw e)
  | (emitted, Ok response) =>
      let connected :=
        created ++ flat_map (melcloud_on accountName) emitted
                ++ [ChackDevicesList accountName (contextKey response)] in
      match chackDevicesList w a (contextKey response) with
      | (emitted', Throw e) =>
          (connected ++ flat_map (melcloud_on accountName) emitted', Throw e)
      | (emitted', Ok devices) =>
          (connected ++ flat_map (melcloud_on accountName) emitted'
                     ++ ImpulseGeneratorStart accountName (timers a)
                     :: dispatch_all a accountName devices (useFahrenheit response),
           Ok tt)
      end
  end.

(** Lines 75-243: [try { ... } catch (error) { log.error(...) }]. *)
Definition try_startup (a : account) : list effect :=
  match startup a with
  | (done, Ok _) => done
  | (done, Throw e) =>
      done ++ [Log log_error ("Account: " ^^ ToString (name a)
                              ^^ ", did finish launching error: " ^^ e)]
  end.

(** Lines 56-63: the copy of the account that is logged. *)
Definition debugData (a : account) : account :=
  {| name := name a;
     user := user a;
     passwd := Some "removed";
     language := language a;
     enableDebugMode := enableDebugMode a;
     refreshInterval := refreshInterval a;
     deviceRefreshInterval := deviceRefreshInterval a;
     mqtt := Some (obj_set "passwd" (JStr "removed") (spread_opt (mqtt a)));
     ataDevices := ataDevices a;
     atwDevices := atwDevices a;
     ervDevices := ervDevices a;
     others := others a |}.

(** Lines 52-64: the two debug lines. *)
Definition debug_log (a : account) : list effect :=
  let accountName := ToString (name a) in
  let enableDebugMode := nullish (enableDebugMode a) false in
  (if enableDebugMode
   then [Log log_info ("Account: " ^^ accountName ^^ ", did finish launching.")]
   else [])
  ++ (if enableDebugMode
      then [Log log_info ("Account: " ^^ accountName ^^ ", Config: "
                          ^^ JSON_stringify w (debugData a))]
      else []).

(** Lines 49-243: what the body does with an account that passed both checks. *)
Definition accepted (a : account) : list effect :=
  AccountsNamePush (name a) :: debug_log a ++ try_startup a.

Definition ok_or (v : jsstring) : string :=
  if truthy v then "OK" else ToString v.

(** Line 39. *)
Definition mandatory_missing (a : account) : bool :=
  negb (truthy (name a)) || negb (truthy (user a))
  || negb (truthy (passwd a)) || negb (truthy (language a)).

(** Line 40. *)
Definition missing_warning (a : account) : effect :=
  Log log_warn ("Name: " ^^ ok_or (name a) ^^ ", user: " ^^ ok_or (user a)
                ^^ ", password: " ^^ ok_or (passwd a)
                ^^ ", language: " ^^ ok_or (language a) ^^ " in config missing.").

(** Line 46. *)
Definition unique_warning (a : account) : effect :=
  Log log_warn ("Account name: " ^^ ToString (name a) ^^ ", must be unique.").

(** Lines 33-243: the body of the account loop, from a value of
    [accountsName] to the next one. *)
Definition account_body (accountsName : list jsstring) (a : account)
  : list jsstring * list effect * signal :=
  if mandatory_missing a then (accountsName, [missing_warning a], Return)
  else if includes accountsName (name a) then (accountsName, [unique_warning a], Return)
  else (accountsName ++ [name a], accepted a, Next).

(** Lines 32-244: [for (const account of config.accounts) { ... }]. *)
Fixpoint account_loop (accountsName : list jsstring) (accounts : list account)
  : list jsstring * list effect :=
  match accounts with
  | [] => (accountsName, [])
  | a :: rest =>
      match account_body accountsName a with
      | (names, here, Return) => (names, here)
      | (names, here, Next) =>
          let (names', later) := account_loop names rest in
          (names', here ++ later)
      end
  end.

(** The handler: [accountsName] is the empty array of line 18. *)
Definition didFinishLaunching (accounts : list account) : list effect :=
  snd (account_loop [] accounts).

End Platform.

(** ** Reading a trace *)

(** The effects by which a controller comes to exist and to run. *)
Definition is_controller_effect (e : effect) : bool :=
  match e with
  | NewDevice _ _ _ _ _ | Start _ _ _ => true
  | _ => false
  end.

Definition controllers (tr : list effect) : list effect :=
  filter is_controller_effect tr.

(** The effects that bring a device to the platform. *)
Definition is_device_effect (e : effect) : bool :=
  match e with
  | NewDevice _ _ _ _ _ | Start _ _ _ | PublishExternalAccessories _ _ => true
  | _ => false
  end.

Definition device_effects (tr : list effect) : list effect :=
  filter is_device_effect tr.

(** The entries of a device list of the configuration, none when it is absent. *)
Definition listed (ds : option (list device)) : list device :=
  match ds with
  | Some l => l
  | None => []
  end.

(** The devices whose controller's constructor was called, in order. *)
Fixpoint constructed (tr : list effect) : list (devtype * device) :=
  match tr with
  | [] => []
  | NewDevice t _ d _ _ :: tr' => (t, d) :: constructed tr'
  | _ :: tr' => constructed tr'
  end.

(** [displayMode > 0] and a cloud device of the same id, as propositions. *)
Definition enabled (d : device) : Prop :=
  exists z, Device.displayMode d = Some z /\ (0 < z)%Z.

Definition present (devices : list clouddevice) (d : device) : Prop :=
  exists dev, In dev devices /\ DeviceID dev = Device.id d.

(** Two objects with the same properties in the same order, whose values
    differ at most at [passwd]. *)
Definition same_but_passwd (m1 m2 : obj) : Prop :=
  Forall2 (fun p q => fst p = fst q /\ (fst p <> "passwd" -> snd p = snd q)) m1 m2.

(** No property is listed twice. *)
Definition unique_keys (m : obj) : Prop := NoDup (map fst m).

(** Two accounts that differ at most in the account password and in the
    password of the [mqtt] object. *)
Definition differ_only_in_passwords (a1 a2 : account) : Prop :=
  name a1 = name a2 /\ user a1 = user a2 /\ language a1 = language a2
  /\ enableDebugMode a1 = enableDebugMode a2
  /\ refreshInterval a1 = refreshInterval a2
  /\ deviceRefreshInterval a1 = deviceRefreshInterval a2
  /\ ataDevices a1 = ataDevices a2 /\ atwDevices a1 = atwDevices a2
  /\ ervDevices a1 = ervDevices a2 /\ others a1 = others a2
  /\ match mqtt a1, mqtt a2 with
     | Some m1, Some m2 => same_but_passwd m1 m2
     | None, None => True
     | _, _ => False
     end.

(** ** The refresh tick *)

Module Refresh.

(** Modelled from the spec: the refresh tick, which [melcloud.js] and its
    impulse generator run and which are not among the sources.  "Each
    refresh tick re-runs DeviceRegistry.refresh" and "refresh(contextKey)
    calls Session.listDevices, replaces the stored snapshot atomically.  On
    failure, the previous snapshot is retained and the error is surfaced to
    the caller/event stream".  A running account is the registry's snapshot
    and the effects so far; what the tick emits reaches the listeners that
    [index.js] attached to the session ([melcloud_on]). *)
Record running := {
  snapshot : list clouddevice;
  trace : list effect
}.

(** Modelled from the spec: [DeviceRegistry.refresh], absent from the sources.
    A listing that succeeds replaces the snapshot; one that fails keeps it and
    emits the error. *)
Definition refresh (snapshot : list clouddevice) (listed : call (list clouddevice))
  : list clouddevice * list melcloud_event :=
  match listed with
  | (emitted, Ok devices) => (devices, emitted)
  | (emitted, Throw e) => (snapshot, emitted ++ [mc_error e])
  end.

(** Modelled from the spec: one firing of the [checkDevicesList] timer, absent
    from the sources.  It refreshes the registry; what the session emits goes
    through the listeners of [index.js]. *)
Definition tick (accountName : string) (r : running) (listed : call (list clouddevice))
  : running :=
  let (snapshot', emitted) := refresh (snapshot r) listed in
  {| snapshot := snapshot';
     trace := trace r ++ flat_map (melcloud_on accountName) emitted |}.

(** Modelled from the spec: the ticks of a running account, one after the
    other ("tick callbacks execute sequentially per scheduler instance"). *)
Definition ticks (accountName : string) (r : running)
           (listings : list (call (list clouddevice))) : running :=
  fold_left (tick accountName) listings r.

End Refresh.

(** ** A concrete installation, to run the handler on *)

Module Scenario.

Definition mk_device (id name : string) (mode : option Z) : device :=
  {| Device.id := PStr id;
     Device.name := name;
     Device.typeString := "Air Conditioner";
     Device.displayMode := mode |}.

Definition living : device := mk_device "D1" "Living" (Some 1%Z).
Definition bedroom : device := mk_device "D2" "Bedroom" (Some 1%Z).
(** Its [start] rejects. *)
Definition broken : device := mk_device "D3" "Broken" (Some 1%Z).
(** Its constructor throws. *)
Definition unbuildable : device := mk_device "D4" "Unbuildable" (Some 1%Z).
Definition hidden : device := mk_device "D1" "Hidden" (Some 0%Z).

Definition cloud : list clouddevice :=
  map (fun i => {| DeviceID := PStr i; attributes := [] |}) ["D1"; "D2"; "D3"; "D4"].

Definition mk_account (name user passwd : jsstring) (ata atw : list device) : account :=
  {| name := name;
     user := user;
     passwd := passwd;
     language := Some "0";
     enableDebugMode := None;
     refreshInterval := None;
     deviceRefreshInterval := None;
     mqtt := None;
     ataDevices := Some ata;
     atwDevices := Some atw;
     ervDevices := Some [];
     others := [] |}.

Definition home : account := mk_account (Some "Home") (Some "ann") (Some "pw1") [living] [].
Definition home_again : account := mk_account (Some "Home") (Some "bob") (Some "pw2") [bedroom] [].
Definition office : account := mk_account (Some "Office") (Some "cat") (Some "pw3") [bedroom] [].
(** The cloud refuses this user. *)
Definition cabin : account := mk_account (Some "Cabin") (Some "offline") (Some "pw4") [living] [].
(** Same name as [cabin], another user. *)
Definition cabin_again : account := mk_account (Some "Cabin") (Some "fay") (Some "pw7") [bedroom] [].
Definition nameless : account := mk_account None (Some "dan") (Some "pw5") [living] [].
Definition workshop : account :=
  mk_account (Some "Workshop") (Some "eve") (Some "pw6") [broken; living] [unbuildable; bedroom].

(** [home] with debugging on and an [mqtt] object, under two pairs of
    passwords. *)
Definition debugged (passwd mqtt_passwd : string) : account :=
  {| name := Some "Home";
     user := Some "ann";
     passwd := Some passwd;
     language := Some "0";
     enableDebugMode := Some true;
     refreshInterval := Some 60%Z;
     deviceRefreshInterval := None;
     mqtt := Some [("host", JStr "broker"); ("passwd", JStr mqtt_passwd); ("port", JNum 1883)];
     ataDevices := Some [living];
     atwDevices := Some [];
     ervDevices := Some [];
     others := [] |}.

(** [home] asking for a refresh every -5 seconds. *)
Definition impatient : account :=
  {| name := Some "Home";
     user := Some "ann";
     passwd := Some "pw1";
     language := Some "0";
     enableDebugMode := None;
     refreshInterval := Some (-5)%Z;
     deviceRefreshInterval := None;
     mqtt := None;
     ataDevices := Some [living];
     atwDevices := Some [];
     ervDevices := Some [];
     others := [] |}.

(** A rendering that shows both passwords of what it is given. *)
Definition show (a : account) : string :=
  "{name: " ^^ ToString (name a) ^^ ", passwd: " ^^ ToString (passwd a)
  ^^ ", mqtt.passwd: "
  ^^ match mqtt a with
     | Some m => match obj_get "passwd" m with Some (JStr s) => s | _ => "?" end
     | None => "?"
     end ^^ "}".

Definition w : world :=
  {| PluginName := "homebridge-melcloud-control";
     prefDir := "/var/lib/homebridge/melcloud";
     JSON_stringify := show;
     not_iterable := "TypeError: object is not iterable";
     connect := fun a =>
       match user a with
       | Some "offline" => ([], Throw "Error: login failed")
       | _ => ([mc_success "connected"],
               Ok {| accountInfo := JNull; contextKey := "key"; useFahrenheit := false |})
       end;
     chackDevicesList := fun _ _ => ([], Ok cloud);
     controller := fun _ _ d =>
       match Device.name d with
       | "Broken" => Constructed [] (Throw "Error: start failed")
       | "Unbuildable" => ConstructorThrows "Error: no such device"
       | n => Constructed [publishAccessory n] (Ok tt)
       end |}.

End Scenario.

(** ** The platform object *)

(** The [config] argument of the constructor: absent, without an array of
    accounts, or with one. *)
Inductive config :=
| NoConfig
| NoAccounts
| Accounts (accounts : list account).

(** What the constructor leaves behind: [this.accessories] ([None] while the
    property was never assigned) and the accounts of the handler registered
    for [didFinishLaunching] ([None] when none was registered). *)
Record platform := {
  accessories : option (list string);
  handler : option (list account)
}.

(** Lines 11-29: the constructor, given how [mkdirSync] ends. *)
Definition MelCloudPlatform (w : world) (c : config) (mkdirSync : result unit)
  : list effect * platform :=
  match c with
  | NoConfig | NoAccounts =>
      ([Log log_warn ("No configuration found for " ^^ PluginName w)],
       {| accessories := None; handler := None |})
  | Accounts accounts =>
      match mkdirSync with
      | Throw error =>
          ([Log log_error ("Prepare directory error: " ^^ error)],
           {| accessories := Some []; handler := None |})
      | Ok _ => ([], {| accessories := Some []; handler := Some accounts |})
      end
  end.

(** Lines 248-250: [this.accessories.push(accessory)]; [None] is the
    [TypeError] of a [push] on [undefined]. *)
Definition configureAccessory (p : platform) (accessory : string) : option platform :=
  match accessories p with
  | Some l => Some {| accessories := Some (l ++ [accessory]); handler := handler p |}
  | None => None
  end.

(** The accessories that the host restores from its cache, one call each;
    the first call that throws ends the sequence. *)
Fixpoint restore (p : platform) (cached : list string) : option platform :=
  match cached with
  | [] => Some p
  | accessory :: rest =>
      match configureAccessory p accessory with
      | Some p' => restore p' rest
      | None => None
      end
  end.

(** The host emits [didFinishLaunching] once: the registered handler runs. *)
Definition launch (w : world) (p : platform) : list effect :=
  match handler p with
  | Some accounts => didFinishLaunching w accounts
  | None => []
  end.

(** ** Reading a trace, continued *)

(** The accessories handed to [api.publishExternalAccessories], in order. *)
Fixpoint published (tr : list effect) : list string :=
  match tr with
  | [] => []
  | PublishExternalAccessories _ l :: tr' => l ++ published tr'
  | _ :: tr' => published tr'
  end.

(** The devices whose controller's [start] was called, in order. *)
Fixpoint started (tr : list effect) : list (devtype * device) :=
  match tr with
  | [] => []
  | Start t _ d :: tr' => (t, d) :: started tr'
  | _ :: tr' => started tr'
  end.

(** The account files of the sessions created, in order. *)
Fixpoint sessions (tr : list effect) : list string :=
  match tr with
  | [] => []
  | NewMelCloud _ _ _ accountFile _ _ _ :: tr' => accountFile :: sessions tr'
  | _ :: tr' => sessions tr'
  end.

(** The starts of an impulse generator, in order. *)
Fixpoint impulses (tr : list effect) : list (string * list timer) :=
  match tr with
  | [] => []
  | ImpulseGeneratorStart n ts :: tr' => (n, ts) :: impulses tr'
  | _ :: tr' => impulses tr'
  end.

(** The accessories of the [publishAccessory] events among those emitted. *)
Definition accessories_of (emitted : list device_event) : list string :=
  flat_map (fun ev => match ev with publishAccessory x => [x] | _ => [] end) emitted.

(** The accessories that the controller of a device emits while it starts. *)
Definition emitted_accessories (w : world) (t : devtype) (a : account) (d : device)
  : list string :=
  match controller w t a d with
  | ConstructorThrows _ => []
  | Constructed emitted _ => accessories_of emitted
  end.

(** The effects a dispatch loop can have. *)
Definition is_dispatch_effect (e : effect) : bool :=
  match e with
  | Log _ _ | NewDevice _ _ _ _ _ | Start _ _ _ | PublishExternalAccessories _ _ => true
  | _ => false
  end.

(** The device list of an account for a device type. *)
Definition configured (t : devtype) (a : account) : option (list device) :=
  match t with
  | ATA => ataDevices a
  | ATW => atwDevices a
  | ERV => ervDevices a
  end.

(** The warning that ends the handler at a rejected account. *)
Definition rejection (a : account) : effect :=
  if mandatory_missing a then missing_warning a else unique_warning a.

(** A cloud whose device ids are numbers, and a configuration that writes
    the same digits as a string. *)
Module Numeric.

Definition cloud : list clouddevice :=
  [{| DeviceID := PNum 101; attributes := [] |};
   {| DeviceID := PNum 102; attributes := [] |}].

Definition quoted : device :=
  {| Device.id := PStr "101";
     Device.name := "Quoted";
     Device.typeString := "Air Conditioner";
     Device.displayMode := Some 1%Z |}.

End Numeric.

(** * Properties *)

(** ** Values *)

Lemma strict_eq_true (a b : prim) : strict_eq a b = true <-> a = b.
Proof.
  destruct a as [x|s], b as [y|u]; simpl; split; intro H; try discriminate.
  - apply Z.eqb_eq in H. now subst.
  - injection H as ->. apply Z.eqb_refl.
  - apply String.eqb_eq in H. now subst.
  - injection H as ->. apply String.eqb_refl.
Qed.

Lemma jsstring_eqb_true (a b : jsstring) : jsstring_eqb a b = true <-> a = b.
Proof.
  destruct a as [s|], b as [u|]; simpl; split; intro H; try discriminate; trivial.
  - apply String.eqb_eq in H. now subst.
  - injection H as ->. apply String.eqb_refl.
Qed.

Lemma includes_In (l : list jsstring) (v : jsstring) : includes l v = true <-> In v l.
Proof.
  unfold includes. rewrite existsb_exists. split.
  - intros [x [Hin Heq]]. apply jsstring_eqb_true in Heq. now subst.
  - intro Hin. exists v. split; [exact Hin | now apply jsstring_eqb_true].
Qed.

Lemma includes_not_In (l : list jsstring) (v : jsstring) : includes l v = false <-> ~ In v l.
Proof.
  rewrite <- includes_In. destruct (includes l v); split; intro H; try discriminate; trivial.
  now contradiction H.
Qed.

Lemma displayMode_enabled (d : device) : displayMode d = true <-> enabled d.
Proof.
  unfold displayMode, enabled, nullish. destruct (Device.displayMode d) as [z|]; simpl.
  - rewrite Z.ltb_lt. split.
    + intro H. now exists z.
    + intros [z' [Heq Hlt]]. now injection Heq as ->.
  - split; [discriminate | intros [z [Heq _]]; discriminate].
Qed.

Lemma deviceExistInMelCloud_present (devices : list clouddevice) (d : device) :
  deviceExistInMelCloud devices (Device.id d) = true <-> present devices d.
Proof.
  unfold deviceExistInMelCloud, present. rewrite existsb_exists.
  split; intros [dev [Hin H]]; exists dev; (split; [exact Hin|]); now apply strict_eq_true.
Qed.

Lemma dispatched_iff (devices : list clouddevice) (d : device) :
  dispatched devices d = true <-> enabled d /\ present devices d.
Proof.
  unfold dispatched.
  rewrite <- displayMode_enabled, <- deviceExistInMelCloud_present.
  destruct (deviceExistInMelCloud devices (Device.id d)), (displayMode d); simpl;
    split; intro H; try discriminate; try (destruct H; discriminate); auto.
Qed.

(** ** Traces *)

Lemma constructed_app (tr1 tr2 : list effect) :
  constructed (tr1 ++ tr2) = constructed tr1 ++ constructed tr2.
Proof.
  induction tr1 as [|e tr1 IH]; simpl; [reflexivity|].
  destruct e; simpl; now rewrite IH.
Qed.

Lemma constructed_In (tr : list effect) (t : devtype) (d : device) :
  In (t, d) (constructed tr) <-> exists n ms f, In (NewDevice t n d ms f) tr.
Proof.
  induction tr as [|e tr IH]; simpl.
  - split; [tauto | intros (n & ms & f & [])].
  - destruct e; simpl; rewrite IH; split;
      try (intros (n & ms & f & H); exists n, ms, f; now right);
      try (intros (n & ms & f & [H|H]); [discriminate | now exists n, ms, f]).
    + intros [H|(n & ms & f & H)].
      * injection H as -> ->. eexists _, _, _. left. reflexivity.
      * exists n, ms, f. now right.
    + intros (n & ms & f & [H|H]).
      * injection H as -> _ -> _ _. now left.
      * right. now exists n, ms, f.
Qed.

Lemma controllers_app (tr1 tr2 : list effect) :
  controllers (tr1 ++ tr2) = controllers tr1 ++ controllers tr2.
Proof. apply filter_app. Qed.

Lemma controllers_melcloud_on (accountName : string) (emitted : list melcloud_event) :
  controllers (flat_map (melcloud_on accountName) emitted) = [].
Proof.
  induction emitted as [|ev emitted IH]; simpl; [reflexivity|].
  rewrite controllers_app, IH. now destruct ev.
Qed.

Section DispatchFacts.

Variable w : world.
Variable t : devtype.
Variable a : account.
Variable accountName : string.
Variable devices : list clouddevice.
Variable ms : number.
Variable f : bool.

Local Abbreviation body := (loop_body w t a accountName devices ms f).
Local Abbreviation loop := (for_of w t a accountName devices ms f).
Local Abbreviation start := (start_device w t a accountName ms f).

Lemma loop_body_skipped (d : device) :
  dispatched devices d = false -> body d = ([], Ok tt).
Proof.
  unfold dispatched, loop_body. intro H. apply negb_false_iff in H. now rewrite H.
Qed.

Lemma loop_body_dispatched (d : device) :
  dispatched devices d = true -> body d = start d.
Proof.
  unfold dispatched, loop_body. intro H. apply negb_true_iff in H. now rewrite H.
Qed.

Lemma constructed_device_on (n u v : string) (emitted : list device_event) :
  constructed (flat_map (device_on w n u v) emitted) = [].
Proof.
  induction emitted as [|ev emitted IH]; simpl; [reflexivity|].
  rewrite constructed_app, IH. now destruct ev.
Qed.

Lemma constructed_start (d : device) : constructed (fst (start d)) = [(t, d)].
Proof.
  unfold start_device. destruct (controller w t a d); simpl; [reflexivity|].
  now rewrite constructed_device_on.
Qed.

Lemma start_begins_with_new (d : device) :
  exists rest, fst (start d) = NewDevice t accountName d ms f :: rest.
Proof.
  unfold start_device. destruct (controller w t a d); simpl; eauto.
Qed.

Lemma constructed_body (d : device) :
  constructed (fst (body d)) = if dispatched devices d then [(t, d)] else [].
Proof.
  destruct (dispatched devices d) eqn:H.
  - rewrite loop_body_dispatched by exact H. apply constructed_start.
  - now rewrite loop_body_skipped.
Qed.

Lemma for_of_cons (d : device) (rest : list device) :
  loop (d :: rest)
  = match body d with
    | (here, Ok _) => let (later, r) := loop rest in (here ++ later, r)
    | (here, Throw e) => (here, Throw e)
    end.
Proof. reflexivity. Qed.

Lemma for_of_app (ds1 ds2 : list device) :
  loop (ds1 ++ ds2)
  = match loop ds1 with
    | (tr1, Ok _) => let (tr2, r) := loop ds2 in (tr1 ++ tr2, r)
    | (tr1, Throw e) => (tr1, Throw e)
    end.
Proof.
  induction ds1 as [|d ds1 IH].
  - simpl. now destruct (loop ds2).
  - rewrite <- app_comm_cons, !for_of_cons, IH.
    destruct (body d) as [here [u|e]]; [|reflexivity].
    destruct (loop ds1) as [tr1 [u1|e1]]; [|reflexivity].
    destruct (loop ds2) as [tr2 r]. now rewrite app_assoc.
Qed.

(** The controllers a loop constructs are the first ones, in the order of
    the list, of those it does not skip. *)
Lemma constructed_for_of (ds : list device) :
  exists rest,
    map (pair t) (filter (dispatched devices) ds) = constructed (fst (loop ds)) ++ rest.
Proof.
  induction ds as [|d ds [rest IH]].
  - now exists [].
  - rewrite for_of_cons. simpl filter.
    pose proof (constructed_body d) as Hb.
    destruct (body d) as [here [u|e]]; simpl in Hb.
    + destruct (loop ds) as [later r]. simpl in *. exists rest.
      rewrite constructed_app, Hb.
      destruct (dispatched devices d); simpl; now rewrite IH.
    + simpl. rewrite Hb.
      destruct (dispatched devices d); simpl; eauto.
Qed.

Lemma constructed_for_of_In (ds : list device) (t' : devtype) (d : device) :
  In (t', d) (constructed (fst (loop ds))) ->
  t' = t /\ In d ds /\ dispatched devices d = true.
Proof.
  intro H. destruct (constructed_for_of ds) as [rest Heq].
  assert (Hin : In (t', d) (map (pair t) (filter (dispatched devices) ds))).
  { rewrite Heq. apply in_or_app. now left. }
  apply in_map_iff in Hin. destruct Hin as [d' [Hp Hf]].
  injection Hp as -> ->. apply filter_In in Hf. tauto.
Qed.

End DispatchFacts.

(** ** The dispatch loops *)

Section DispatchClaims.

Variable w : world.
Variable t : devtype.
Variable a : account.
Variable accountName : string.
Variable devices : list clouddevice.
Variable ms : number.
Variable f : bool.

(** C2, in the form the code satisfies:
    when the constructor or the [start] of the controller of
    a device throws, the [try]/[catch] around the loop of that device type
    catches it and logs it once; the loop has ended, so the trace of that type
    stops there and no device that follows in the same list has a controller
    constructed or started. *)
Theorem failure_is_caught_at_the_loop_and_ends_it
        (ds1 : list device) (d : device) (ds2 : list device)
        (tr1 : list effect) (e : string) :
  for_of w t a accountName devices ms f ds1 = (tr1, Ok tt) ->
  dispatched devices d = true ->
  snd (start_device w t a accountName ms f d) = Throw e ->
  try_dispatch w t a accountName devices ms f (Some (ds1 ++ d :: ds2))
  = tr1 ++ fst (start_device w t a accountName ms f d)
        ++ [Log log_error ("Account: " ^^ accountName ^^ ", " ^^ label t
                           ^^ " did finish launching error: " ^^ e)]
  /\ constructed (try_dispatch w t a accountName devices ms f (Some (ds1 ++ d :: ds2)))
     = constructed tr1 ++ [(t, d)].
Proof.
  intros H1 Hd He.
  assert (Heq : try_dispatch w t a accountName devices ms f (Some (ds1 ++ d :: ds2))
                = tr1 ++ fst (start_device w t a accountName ms f d)
                      ++ [Log log_error ("Account: " ^^ accountName ^^ ", " ^^ label t
                                         ^^ " did finish launching error: " ^^ e)]).
  { unfold try_dispatch.
    rewrite for_of_app, H1, for_of_cons, loop_body_dispatched by exact Hd.
    destruct (start_device w t a accountName ms f d) as [here r].
    simpl in He. subst r. simpl. now rewrite app_assoc. }
  split; [exact Heq|].
  rewrite Heq, !constructed_app, constructed_start. reflexivity.
Qed.

(** C3, in the form the code satisfies:
    for a device that its loop reaches (no device before it
    in the list threw), the constructor of a controller is called if and only
    if [displayMode > 0] and the cloud's list has a device of the same id, and
    [start] is called next whenever the constructor returns; a device for
    which either condition fails leaves no effect at all: the loop behaves as
    if it were not in the list. *)
Theorem controller_iff_enabled_and_present
        (ds1 : list device) (d : device) (ds2 : list device) (tr1 : list effect) :
  for_of w t a accountName devices ms f ds1 = (tr1, Ok tt) ->
  ((enabled d /\ present devices d)
   <-> exists rest,
        fst (for_of w t a accountName devices ms f (ds1 ++ d :: ds2))
        = tr1 ++ NewDevice t accountName d ms f :: rest)
  /\ (enabled d /\ present devices d ->
      forall emitted r, controller w t a d = Constructed emitted r ->
      exists rest,
        fst (for_of w t a accountName devices ms f (ds1 ++ d :: ds2))
        = tr1 ++ NewDevice t accountName d ms f :: Start t accountName d :: rest)
  /\ (~ (enabled d /\ present devices d) ->
      for_of w t a accountName devices ms f (ds1 ++ d :: ds2)
      = for_of w t a accountName devices ms f (ds1 ++ ds2)).
Proof.
  intro H1. rewrite <- dispatched_iff.
  rewrite !for_of_app, H1, for_of_cons.
  destruct (dispatched devices d) eqn:Hd.
  - rewrite loop_body_dispatched by exact Hd.
    split; [|split].
    + split; [intros _ | reflexivity].
      destruct (start_begins_with_new w t a accountName ms f d) as [rest Hrest].
      destruct (start_device w t a accountName ms f d) as [here [u|e]];
        simpl in Hrest; subst here.
      * destruct (for_of w t a accountName devices ms f ds2) as [later r].
        simpl. eauto.
      * simpl. eauto.
    + intros _ emitted r Hc. unfold start_device. rewrite Hc.
      destruct r as [u|e].
      * destruct (for_of w t a accountName devices ms f ds2) as [later r].
        simpl. eauto.
      * simpl. eauto.
    + intro H. now contradiction H.
  - rewrite loop_body_skipped by exact Hd.
    split; [|split].
    + split; [discriminate|].
      intros [rest Hrest].
      pose proof (constructed_for_of_In w t a accountName devices ms f ds2 t d) as Hin.
      destruct (for_of w t a accountName devices ms f ds2) as [later r].
      simpl in Hrest. apply app_inv_head in Hrest. subst later.
      simpl in Hin. destruct Hin as (_ & _ & Hin); [now left|].
      now rewrite Hin in Hd.
    + discriminate.
    + intros _. now destruct (for_of w t a accountName devices ms f ds2).
Qed.

End DispatchClaims.

(** ** The account loop *)

Section AccountFacts.

Variable w : world.

Lemma account_body_missing (names : list jsstring) (a : account) :
  mandatory_missing a = true ->
  account_body w names a = (names, [missing_warning a], Return).
Proof. unfold account_body. now intros ->. Qed.

Lemma account_body_duplicate (names : list jsstring) (a : account) :
  mandatory_missing a = false -> In (name a) names ->
  account_body w names a = (names, [unique_warning a], Return).
Proof.
  unfold account_body. intros -> Hin. apply includes_In in Hin. now rewrite Hin.
Qed.

Lemma account_body_accepted (names : list jsstring) (a : account) :
  mandatory_missing a = false -> ~ In (name a) names ->
  account_body w names a = (names ++ [name a], accepted w a, Next).
Proof.
  unfold account_body. intros -> Hin. apply includes_not_In in Hin. now rewrite Hin.
Qed.

(** When every account passes both checks, the loop reaches each of them. *)
Lemma account_loop_all_accepted (accounts : list account) :
  forall names : list jsstring,
    Forall (fun a => mandatory_missing a = false) accounts ->
    NoDup (map name accounts) ->
    (forall a, In a accounts -> ~ In (name a) names) ->
    account_loop w names accounts
    = (names ++ map name accounts, flat_map (accepted w) accounts).
Proof.
  induction accounts as [|a accounts IH]; intros names Hok Hnd Hfresh; simpl.
  - now rewrite app_nil_r.
  - inversion Hok as [|? ? Ha Hrest]; subst.
    inversion Hnd as [|? ? Hnotin Hnd']; subst.
    rewrite account_body_accepted; [|exact Ha|apply Hfresh; now left].
    rewrite IH; [now rewrite <- app_assoc|exact Hrest|exact Hnd'|].
    intros b Hb Hin. apply in_app_or in Hin. destruct Hin as [Hin|[Heq|[]]].
    + apply (Hfresh b); [now right|exact Hin].
    + apply Hnotin. rewrite Heq. now apply in_map.
Qed.

Lemma device_effects_app (tr1 tr2 : list effect) :
  device_effects (tr1 ++ tr2) = device_effects tr1 ++ device_effects tr2.
Proof. apply filter_app. Qed.

Lemma device_effects_melcloud_on (accountName : string) (emitted : list melcloud_event) :
  device_effects (flat_map (melcloud_on accountName) emitted) = [].
Proof.
  induction emitted as [|ev emitted IH]; simpl; [reflexivity|].
  rewrite device_effects_app, IH. now destruct ev.
Qed.

Lemma device_effects_debug_log (a : account) : device_effects (debug_log w a) = [].
Proof. unfold debug_log. now destruct (nullish (enableDebugMode a) false). Qed.

Lemma controllers_debug_log (a : account) : controllers (debug_log w a) = [].
Proof. unfold debug_log. now destruct (nullish (enableDebugMode a) false). Qed.

(** Accounts that all pass both checks are handled one after the other, and
    the loop goes on with what follows them. *)
Lemma account_loop_app_accepted (reached : list account) :
  forall (names : list jsstring) (rest : list account),
    Forall (fun a => mandatory_missing a = false) reached ->
    NoDup (map name reached) ->
    (forall a, In a reached -> ~ In (name a) names) ->
    account_loop w names (reached ++ rest)
    = (fst (account_loop w (names ++ map name reached) rest),
       flat_map (accepted w) reached
       ++ snd (account_loop w (names ++ map name reached) rest)).
Proof.
  induction reached as [|a reached IH]; intros names rest Hok Hnd Hfresh.
  - simpl. rewrite app_nil_r. now destruct (account_loop w names rest).
  - inversion Hok as [|? ? Ha Hrest]; subst.
    inversion Hnd as [|? ? Hnotin Hnd']; subst.
    cbn [app account_loop].
    rewrite account_body_accepted; [|exact Ha|apply Hfresh; now left].
    rewrite IH; [|exact Hrest|exact Hnd'|].
    + cbn [map flat_map]. rewrite <- !app_assoc. reflexivity.
    + intros b Hb Hin. apply in_app_or in Hin. destruct Hin as [Hin|[Heq|[]]].
      * apply (Hfresh b); [now right|exact Hin].
      * apply Hnotin. rewrite Heq. now apply in_map.
Qed.

(** Names are only ever added to [accountsName]. *)
Lemma account_loop_keeps_names (accounts : list account) :
  forall (names : list jsstring) (n : jsstring),
    In n names -> In n (fst (account_loop w names accounts)).
Proof.
  induction accounts as [|a accounts IH]; intros names n Hin; simpl; [exact Hin|].
  unfold account_body.
  destruct (mandatory_missing a); [exact Hin|].
  destruct (includes names (name a)); [exact Hin|].
  specialize (IH (names ++ [name a]) n).
  destruct (account_loop w (names ++ [name a]) accounts) as [names' later].
  apply IH, in_or_app. now left.
Qed.

(** The trace of the outer [try] block when the cloud answers both calls. *)
Lemma try_startup_connected (a : account)
      (emitted emitted' : list melcloud_event) (r : response)
      (devices : list clouddevice) :
  connect w a = (emitted, Ok r) ->
  chackDevicesList w a (contextKey r) = (emitted', Ok devices) ->
  try_startup w a
  = NewMelCloud (user a) (passwd a) (language a)
                (prefDir w ^^ "/" ^^ ToString (name a) ^^ "_Account")
                (prefDir w ^^ "/" ^^ ToString (name a) ^^ "_Buildings")
                (prefDir w ^^ "/" ^^ ToString (name a) ^^ "_Devices")
                (nullish (enableDebugMode a) false)
    :: Connect (ToString (name a))
    :: flat_map (melcloud_on (ToString (name a))) emitted
    ++ ChackDevicesList (ToString (name a)) (contextKey r)
    :: flat_map (melcloud_on (ToString (name a))) emitted'
    ++ ImpulseGeneratorStart (ToString (name a)) (timers a)
    :: dispatch_all w a (ToString (name a)) devices (useFahrenheit r).
Proof.
  intros Hc Hl. unfold try_startup, startup. rewrite Hc, Hl. simpl.
  now rewrite <- !app_assoc.
Qed.

(** The outer [try] block begins by creating the session and connecting. *)
Lemma try_startup_begins (a : account) :
  exists tail,
    try_startup w a
    = NewMelCloud (user a) (passwd a) (language a)
                  (prefDir w ^^ "/" ^^ ToString (name a) ^^ "_Account")
                  (prefDir w ^^ "/" ^^ ToString (name a) ^^ "_Buildings")
                  (prefDir w ^^ "/" ^^ ToString (name a) ^^ "_Devices")
                  (nullish (enableDebugMode a) false)
      :: Connect (ToString (name a)) :: tail.
Proof.
  unfold try_startup, startup.
  destruct (connect w a) as [emitted [r|e]]; [|simpl; eauto].
  destruct (chackDevicesList w a (contextKey r)) as [emitted' [devices|e]]; simpl; eauto.
Qed.

(** An account whose connection or first device list fails brings no device. *)
Lemma try_startup_failed (a : account) :
  (exists emitted e, connect w a = (emitted, Throw e))
  \/ (exists emitted r emitted' e,
        connect w a = (emitted, Ok r)
        /\ chackDevicesList w a (contextKey r) = (emitted', Throw e)) ->
  exists e,
    try_startup w a
    = fst (startup w a)
      ++ [Log log_error ("Account: " ^^ ToString (name a)
                         ^^ ", did finish launching error: " ^^ e)]
    /\ device_effects (try_startup w a) = [].
Proof.
  intros [(emitted & e & Hc)|(emitted & r & emitted' & e & Hc & Hl)];
    exists e; unfold try_startup, startup; rewrite Hc; try rewrite Hl; simpl;
    (split; [reflexivity|]);
    rewrite ?device_effects_app, ?device_effects_melcloud_on; reflexivity.
Qed.

End AccountFacts.

(** ** Accounts *)

Section AccountClaims.

Variable w : world.

(** Where every account passes validation (mandatory fields present, names
    distinct), the handler's trace is the traces of the accounts one after
    the other; an account whose [connect] or first [chackDevicesList] throws
    has the error caught and logged inside its own part and brings no device;
    an account for which both succeed has the device effects of its three
    loops. *)
Lemma valid_accounts_are_handled_one_by_one (accounts : list account) :
  Forall (fun a => mandatory_missing a = false) accounts ->
  NoDup (map name accounts) ->
  didFinishLaunching w accounts = flat_map (accepted w) accounts
  /\ (forall A, In A accounts ->
      (exists emitted e, connect w A = (emitted, Throw e))
      \/ (exists emitted r emitted' e,
            connect w A = (emitted, Ok r)
            /\ chackDevicesList w A (contextKey r) = (emitted', Throw e)) ->
      device_effects (accepted w A) = []
      /\ exists e,
          try_startup w A
          = fst (startup w A)
            ++ [Log log_error ("Account: " ^^ ToString (name A)
                               ^^ ", did finish launching error: " ^^ e)])
  /\ (forall B emitted r emitted' devices, In B accounts ->
      connect w B = (emitted, Ok r) ->
      chackDevicesList w B (contextKey r) = (emitted', Ok devices) ->
      device_effects (accepted w B)
      = device_effects (dispatch_all w B (ToString (name B)) devices (useFahrenheit r))).
Proof.
  intros Hok Hnd. split; [|split].
  - unfold didFinishLaunching.
    rewrite account_loop_all_accepted by (trivial; intros a _ []). reflexivity.
  - intros A _ Hfail. destruct (try_startup_failed w A Hfail) as [e [Heq Hnone]].
    split; [|now exists e].
    unfold accepted. simpl.
    now rewrite device_effects_app, device_effects_debug_log, Hnone.
  - intros B emitted r emitted' devices _ Hc Hl.
    unfold accepted. rewrite (try_startup_connected w B _ _ _ _ Hc Hl). simpl.
    rewrite device_effects_app, device_effects_debug_log. simpl.
    rewrite device_effects_app, device_effects_melcloud_on. simpl.
    now rewrite device_effects_app, device_effects_melcloud_on.
Qed.


(** C10: an account that passes validation, wherever it stands in the
    configuration and whatever [accountsName] holds by then, has its name
    pushed onto [accountsName] first, before its session is created and
    [connect] is called; whatever [connect] and [chackDevicesList] then do,
    the name is in the list and stays there while further accounts are
    handled, and an account of the same name that the loop reaches later gets
    the warning for a duplicate name and nothing else. *)
Theorem name_is_reserved_before_connect (a b : account) :
  mandatory_missing a = false ->
  mandatory_missing b = false ->
  name b = name a ->
  (forall names,
     ~ In (name a) names ->
     exists tail,
       account_body w names a
       = (names ++ [name a],
          AccountsNamePush (name a)
          :: debug_log w a
          ++ NewMelCloud (user a) (passwd a) (language a)
                         (prefDir w ^^ "/" ^^ ToString (name a) ^^ "_Account")
                         (prefDir w ^^ "/" ^^ ToString (name a) ^^ "_Buildings")
                         (prefDir w ^^ "/" ^^ ToString (name a) ^^ "_Devices")
                         (nullish (enableDebugMode a) false)
          :: Connect (ToString (name a)) :: tail,
          Next))
  /\ (forall names between,
      In (name a) names -> In (name a) (fst (account_loop w names between)))
  /\ (forall names,
      In (name a) names ->
      account_body w names b = (names, [unique_warning b], Return))
  /\ (forall before between after,
      Forall (fun c => mandatory_missing c = false) (before ++ a :: between) ->
      NoDup (map name (before ++ a :: between)) ->
      didFinishLaunching w (before ++ a :: between ++ b :: after)
      = flat_map (accepted w) (before ++ a :: between) ++ [unique_warning b]).
Proof.
  intros Ha Hb Hname.
  assert (H2 : forall names, In (name a) names ->
                account_body w names b = (names, [unique_warning b], Return)).
  { intros names Hin. rewrite account_body_duplicate; trivial. now rewrite Hname. }
  split; [|split; [|split; [exact H2|]]].
  - intros names Hfresh.
    destruct (try_startup_begins w a) as [tail Htail].
    exists tail. rewrite account_body_accepted by assumption.
    unfold accepted. now rewrite Htail.
  - intros names between Hin. now apply account_loop_keeps_names.
  - intros before between after Hok Hnd.
    unfold didFinishLaunching.
    replace (before ++ a :: between ++ b :: after)
      with ((before ++ a :: between) ++ b :: after)
      by (now rewrite <- app_assoc).
    rewrite account_loop_app_accepted; [|exact Hok|exact Hnd|intros c _ []].
    cbn [snd app account_loop]. rewrite H2; [reflexivity|].
    apply in_map, in_or_app. right. now left.
Qed.

End AccountClaims.

(** ** Refresh intervals *)

(** C5, in the form the code satisfies:
    the timer of the device-list refresh has the configured
    [refreshInterval] times 1000 as its sampling, and 120000 when the value
    is absent or 0; the interval given to the controllers is the configured
    [deviceRefreshInterval] times 1000, and 5000 when the value is absent or
    0.  Any other value, a negative one too, is multiplied and used. *)
Theorem refresh_intervals_and_their_defaults (a : account) :
  timers a = [{| timer_name := "checkDevicesList"; sampling := refreshInterval_ms a |}]
  /\ refreshInterval_ms a
     = match refreshInterval a with
       | None => Num 120000
       | Some z => if (z =? 0)%Z then Num 120000 else Num (z * 1000)
       end
  /\ deviceRefreshInterval_ms a
     = match deviceRefreshInterval a with
       | None => Num 5000
       | Some z => if (z =? 0)%Z then Num 5000 else Num (z * 1000)
       end.
Proof.
  split; [reflexivity|].
  unfold refreshInterval_ms, deviceRefreshInterval_ms, or_number.
  split.
  - destruct (refreshInterval a) as [z|]; simpl; [|reflexivity].
    destruct (Z.eqb_spec z 0) as [->|Hz]; [reflexivity|].
    destruct (Z.eqb_spec (z * 1000) 0) as [H0|_]; [lia|reflexivity].
  - destruct (deviceRefreshInterval a) as [z|]; simpl; [|reflexivity].
    destruct (Z.eqb_spec z 0) as [->|Hz]; [reflexivity|].
    destruct (Z.eqb_spec (z * 1000) 0) as [H0|_]; [lia|reflexivity].
Qed.

(** ** The debug copy of the configuration *)

Lemma obj_get_set (k : string) (v : json) (o : obj) :
  obj_get k (obj_set k v o) = Some v.
Proof.
  induction o as [|[k' v'] o IH]; simpl.
  - now rewrite String.eqb_refl.
  - destruct (k' =? k) eqn:Hk; simpl.
    + now rewrite String.eqb_refl.
    + now rewrite Hk.
Qed.

Lemma obj_set_keys (k : string) (v : json) (o : obj) (k' : string) :
  In k' (map fst (obj_set k v o)) <-> In k' (map fst o) \/ k' = k.
Proof.
  induction o as [|[k0 v0] o IH]; simpl.
  - intuition congruence.
  - destruct (String.eqb_spec k0 k) as [->|Hne]; simpl.
    + intuition congruence.
    + rewrite IH. tauto.
Qed.

Lemma obj_set_unique (k : string) (v : json) (o : obj) :
  unique_keys o -> unique_keys (obj_set k v o).
Proof.
  unfold unique_keys. induction o as [|[k0 v0] o IH]; simpl; intro H.
  - constructor; [intros []|constructor].
  - inversion H as [|? ? Hnotin Hnd]; subst.
    destruct (String.eqb_spec k0 k) as [->|Hne]; simpl.
    + now constructor.
    + constructor; [|now apply IH].
      rewrite obj_set_keys. intros [Hin|Heq]; [now apply Hnotin|congruence].
Qed.

Lemma obj_set_same_but_passwd (k : string) (v1 v2 : json) (m1 m2 : obj) :
  same_but_passwd m1 m2 ->
  (k <> "passwd" -> v1 = v2) ->
  same_but_passwd (obj_set k v1 m1) (obj_set k v2 m2).
Proof.
  unfold same_but_passwd. intros H Hv.
  induction H as [|[k1 x1] [k2 x2] l1 l2 [Hk Hx] Hrest IH]; simpl in *.
  - now repeat constructor.
  - subst k2. destruct (k1 =? k); constructor; simpl; auto.
Qed.

Lemma spread_same_but_passwd (m1 m2 : obj) :
  same_but_passwd m1 m2 ->
  forall acc1 acc2,
    same_but_passwd acc1 acc2 -> unique_keys acc1 ->
    same_but_passwd (spread m1 acc1) (spread m2 acc2) /\ unique_keys (spread m1 acc1).
Proof.
  unfold spread. intro H.
  induction H as [|[k1 x1] [k2 x2] l1 l2 [Hk Hx] Hrest IH]; simpl in *;
    intros acc1 acc2 Hacc Hu; [now split|].
  subst k2. apply IH.
  - now apply obj_set_same_but_passwd.
  - now apply obj_set_unique.
Qed.

Lemma same_but_passwd_eq (m1 m2 : obj) :
  same_but_passwd m1 m2 -> ~ In "passwd" (map fst m1) -> m1 = m2.
Proof.
  intro H. induction H as [|[k1 x1] [k2 x2] l1 l2 [Hk Hx] Hrest IH]; simpl in *;
    intro Hnotin; [reflexivity|].
  subst k2. rewrite Hx, IH; tauto.
Qed.

Lemma obj_set_passwd_eq (v : json) (m1 m2 : obj) :
  same_but_passwd m1 m2 -> unique_keys m1 ->
  obj_set "passwd" v m1 = obj_set "passwd" v m2.
Proof.
  unfold unique_keys. intro H.
  induction H as [|[k1 x1] [k2 x2] l1 l2 [Hk Hx] Hrest IH]; simpl in *;
    intro Hu; [reflexivity|].
  subst k2. inversion Hu as [|? ? Hnotin Hnd]; subst.
  destruct (String.eqb_spec k1 "passwd") as [->|Hne].
  - now rewrite (same_but_passwd_eq l1 l2 Hrest Hnotin).
  - now rewrite (Hx Hne), (IH Hnd).
Qed.

Lemma debugData_eq (a1 a2 : account) :
  differ_only_in_passwords a1 a2 -> debugData a1 = debugData a2.
Proof.
  unfold differ_only_in_passwords, debugData.
  intros (-> & -> & -> & -> & -> & -> & -> & -> & -> & -> & Hm).
  f_equal. f_equal.
  destruct (mqtt a1) as [m1|], (mqtt a2) as [m2|]; try contradiction; [|reflexivity].
  simpl.
  destruct (spread_same_but_passwd m1 m2 Hm [] []) as [Hs Hu];
    [constructor|constructor|].
  now apply obj_set_passwd_eq.
Qed.

(** ** Refresh ticks *)

Lemma tick_controllers (accountName : string) (r : Refresh.running)
      (listed : call (list clouddevice)) :
  controllers (Refresh.trace (Refresh.tick accountName r listed))
  = controllers (Refresh.trace r).
Proof.
  unfold Refresh.tick.
  destruct (Refresh.refresh (Refresh.snapshot r) listed) as [snapshot' emitted]. simpl.
  now rewrite controllers_app, controllers_melcloud_on, app_nil_r.
Qed.

Lemma ticks_controllers (accountName : string) (listings : list (call (list clouddevice))) :
  forall r : Refresh.running,
    controllers (Refresh.trace (Refresh.ticks accountName r listings))
    = controllers (Refresh.trace r).
Proof.
  unfold Refresh.ticks.
  induction listings as [|l listings IH]; intro r; simpl; [reflexivity|].
  now rewrite IH, tick_controllers.
Qed.

(** C7: the controllers of an account are those that the three loops of the
    startup construct and start against the device list that the first
    [chackDevicesList] returned; refresh ticks, however many and whatever
    they return or emit, add log lines only: the controller effects of the
    trace stay what they were after the startup, while a tick that gets a
    list stores it as the registry's snapshot. *)
Theorem refresh_ticks_start_no_controller
        (w : world) (a : account) (emitted emitted' : list melcloud_event)
        (r : response) (devices : list clouddevice)
        (listings : list (call (list clouddevice))) :
  connect w a = (emitted, Ok r) ->
  chackDevicesList w a (contextKey r) = (emitted', Ok devices) ->
  let started := {| Refresh.snapshot := devices; Refresh.trace := accepted w a |} in
  let later := Refresh.ticks (ToString (name a)) started listings in
  controllers (Refresh.trace started)
  = controllers (dispatch_all w a (ToString (name a)) devices (useFahrenheit r))
  /\ controllers (Refresh.trace later) = controllers (Refresh.trace started)
  /\ (exists logged,
      Refresh.trace later = Refresh.trace started ++ logged
      /\ Forall (fun e => exists l m, e = Log l m) logged)
  /\ forall out fresh,
      Refresh.snapshot (Refresh.tick (ToString (name a)) later (out, Ok fresh)) = fresh.
Proof.
  intros Hc Hl started later. split; [|split; [|split; [|reflexivity]]].
  - unfold started, accepted. simpl.
    rewrite (try_startup_connected w a _ _ _ _ Hc Hl).
    rewrite controllers_app, controllers_debug_log. simpl.
    rewrite controllers_app, controllers_melcloud_on. simpl.
    now rewrite controllers_app, controllers_melcloud_on.
  - apply ticks_controllers.
  - unfold later. generalize started. clear.
    unfold Refresh.ticks.
    induction listings as [|l listings IH]; intro s; simpl.
    + exists []. now rewrite app_nil_r.
    + destruct (IH (Refresh.tick (ToString (name a)) s l)) as [logged [Heq Hall]].
      rewrite Heq. unfold Refresh.tick.
      destruct (Refresh.refresh (Refresh.snapshot s) l) as [snapshot' out]. simpl.
      eexists. rewrite <- app_assoc. split; [reflexivity|].
      apply Forall_app. split; [|exact Hall].
      apply Forall_flat_map. clear. induction out as [|ev out IH]; constructor; trivial.
      destruct ev; repeat constructor; eauto.
Qed.

(** * The handler on the concrete installation *)

(** A [return] in the body of the account loop ends the handler: the accounts
    that follow are not looked at. *)
Lemma account_loop_missing (w : world) (names : list jsstring)
      (a : account) (rest : list account) :
  mandatory_missing a = true ->
  account_loop w names (a :: rest) = (names, [missing_warning a]).
Proof. intro H. simpl. now rewrite account_body_missing. Qed.

Lemma account_loop_duplicate (w : world) (names : list jsstring)
      (a : account) (rest : list account) :
  mandatory_missing a = false -> In (name a) names ->
  account_loop w names (a :: rest) = (names, [unique_warning a]).
Proof. intros H Hin. simpl. now rewrite account_body_duplicate. Qed.

(** C1: with an account without a name first and a complete account second,
    the handler logs the warning for the first and ends: the second account,
    which on its own connects, is never started. *)
Lemma missing_field_ends_the_handler :
  didFinishLaunching Scenario.w [Scenario.nameless; Scenario.home]
  = [Log log_warn "Name: undefined, user: OK, password: OK, language: OK in config missing."]
  /\ In (Connect "Home") (didFinishLaunching Scenario.w [Scenario.home])
  /\ constructed (didFinishLaunching Scenario.w [Scenario.home])
     = [(ATA, Scenario.living)].
Proof.
  split; [reflexivity|]. split; [|reflexivity].
  vm_compute. tauto.
Qed.

(** C6: with two accounts of the same name followed by a third of another
    name, the handler starts the first, logs the warning for the second and
    ends: the third account, which after the first alone connects, is never
    started. *)
Lemma duplicate_name_ends_the_handler :
  didFinishLaunching Scenario.w [Scenario.home; Scenario.home_again; Scenario.office]
  = accepted Scenario.w Scenario.home
    ++ [Log log_warn "Account name: Home, must be unique."]
  /\ ~ In (Connect "Office")
        (didFinishLaunching Scenario.w
           [Scenario.home; Scenario.home_again; Scenario.office])
  /\ In (Connect "Office")
        (didFinishLaunching Scenario.w [Scenario.home; Scenario.office]).
Proof.
  split; [reflexivity|]. split.
  - vm_compute. intuition discriminate.
  - vm_compute. tauto.
Qed.

(** In [workshop] the first ATA device's [start] rejects.  The error is caught
    and logged, and the ATA device that follows it in the list, enabled and
    known to the cloud, gets no controller. *)
Lemma sibling_after_a_failed_start_is_not_started :
  ataDevices Scenario.workshop = Some [Scenario.broken; Scenario.living]
  /\ controller Scenario.w ATA Scenario.workshop Scenario.broken
     = Constructed [] (Throw "Error: start failed")
  /\ In (Log log_error "Account: Workshop, ATA did finish launching error: Error: start failed")
        (didFinishLaunching Scenario.w [Scenario.workshop])
  /\ dispatched Scenario.cloud Scenario.living = true
  /\ ~ In (ATA, Scenario.living)
        (constructed (didFinishLaunching Scenario.w [Scenario.workshop])).
Proof.
  split; [reflexivity|]. split; [reflexivity|]. split; [vm_compute; tauto|].
  split; [reflexivity|].
  vm_compute. intuition discriminate.
Qed.

(** In [workshop] the second ATW device has [displayMode] 1 and its id is in
    the cloud's list, and yet no controller is constructed for it: the
    constructor of the device before it threw. *)
Lemma enabled_and_present_device_without_controller :
  atwDevices Scenario.workshop = Some [Scenario.unbuildable; Scenario.bedroom]
  /\ chackDevicesList Scenario.w Scenario.workshop "key" = ([], Ok Scenario.cloud)
  /\ enabled Scenario.bedroom
  /\ present Scenario.cloud Scenario.bedroom
  /\ forall n ms f,
      ~ In (NewDevice ATW n Scenario.bedroom ms f)
           (didFinishLaunching Scenario.w [Scenario.workshop]).
Proof.
  split; [reflexivity|]. split; [reflexivity|].
  split; [exists 1%Z; split; [reflexivity|lia]|].
  split.
  - apply dispatched_iff. reflexivity.
  - intros n ms f H.
    assert (Hin : In (ATW, Scenario.bedroom)
                     (constructed (didFinishLaunching Scenario.w [Scenario.workshop]))).
    { apply constructed_In. now exists n, ms, f. }
    vm_compute in Hin. intuition discriminate.
Qed.

(** A [refreshInterval] of -5 is not positive, and the timer gets -5000, not
    120000. *)
Lemma negative_refreshInterval_is_used :
  refreshInterval Scenario.impatient = Some (-5)%Z
  /\ timers Scenario.impatient
     = [{| timer_name := "checkDevicesList"; sampling := Num (-5000) |}]
  /\ refreshInterval_ms Scenario.impatient <> Num 120000.
Proof.
  split; [reflexivity|]. split; [reflexivity|]. vm_compute. discriminate.
Qed.

(** ** The theorems at work *)

Lemma failure_is_caught_at_the_loop_and_ends_it_witness :
  for_of Scenario.w ATA Scenario.workshop "Workshop" Scenario.cloud (Num 5000) false []
  = ([], Ok tt)
  /\ dispatched Scenario.cloud Scenario.broken = true
  /\ snd (start_device Scenario.w ATA Scenario.workshop "Workshop" (Num 5000) false
                       Scenario.broken)
     = Throw "Error: start failed"
  /\ constructed (try_dispatch Scenario.w ATA Scenario.workshop "Workshop" Scenario.cloud
                               (Num 5000) false
                               (Some ([] ++ Scenario.broken :: [Scenario.living])))
     = constructed [] ++ [(ATA, Scenario.broken)].
Proof.
  split; [reflexivity|]. split; [reflexivity|]. split; [reflexivity|].
  apply (failure_is_caught_at_the_loop_and_ends_it
           Scenario.w ATA Scenario.workshop "Workshop" Scenario.cloud (Num 5000) false
           [] Scenario.broken [Scenario.living] [] "Error: start failed");
    reflexivity.
Defined.

Lemma controller_iff_enabled_and_present_witness :
  let tr1 := fst (for_of Scenario.w ATA Scenario.home "Home" Scenario.cloud (Num 5000) false
                         [Scenario.living]) in
  for_of Scenario.w ATA Scenario.home "Home" Scenario.cloud (Num 5000) false
         [Scenario.living]
  = (tr1, Ok tt)
  /\ (exists rest,
        fst (for_of Scenario.w ATA Scenario.home "Home" Scenario.cloud (Num 5000) false
                    ([Scenario.living] ++ Scenario.bedroom :: [Scenario.hidden]))
        = tr1 ++ NewDevice ATA "Home" Scenario.bedroom (Num 5000) false :: rest)
  /\ for_of Scenario.w ATA Scenario.home "Home" Scenario.cloud (Num 5000) false
            ([Scenario.living] ++ Scenario.hidden :: [Scenario.bedroom])
     = for_of Scenario.w ATA Scenario.home "Home" Scenario.cloud (Num 5000) false
              ([Scenario.living] ++ [Scenario.bedroom]).
Proof.
  intro tr1. split; [reflexivity|]. split.
  - apply (proj1 (controller_iff_enabled_and_present
                    Scenario.w ATA Scenario.home "Home" Scenario.cloud (Num 5000) false
                    [Scenario.living] Scenario.bedroom [Scenario.hidden] tr1 eq_refl)).
    apply dispatched_iff. reflexivity.
  - apply (proj2 (proj2 (controller_iff_enabled_and_present
                    Scenario.w ATA Scenario.home "Home" Scenario.cloud (Num 5000) false
                    [Scenario.living] Scenario.hidden [Scenario.bedroom] tr1 eq_refl))).
    intro H. apply dispatched_iff in H. discriminate H.
Defined.


Lemma refresh_ticks_start_no_controller_witness :
  connect Scenario.w Scenario.home
  = ([mc_success "connected"],
     Ok {| accountInfo := JNull; contextKey := "key"; useFahrenheit := false |})
  /\ chackDevicesList Scenario.w Scenario.home "key" = ([], Ok Scenario.cloud)
  /\ controllers
       (Refresh.trace
          (Refresh.ticks "Home"
             {| Refresh.snapshot := Scenario.cloud;
                Refresh.trace := accepted Scenario.w Scenario.home |}
             [([], Ok []); ([mc_debug "polling"], Throw "Error: timeout");
              ([], Ok ({| DeviceID := PStr "D9"; attributes := [] |} :: Scenario.cloud))]))
     = controllers (accepted Scenario.w Scenario.home).
Proof.
  split; [reflexivity|]. split; [reflexivity|].
  apply (refresh_ticks_start_no_controller
           Scenario.w Scenario.home [mc_success "connected"] []
           {| accountInfo := JNull; contextKey := "key"; useFahrenheit := false |}
           Scenario.cloud
           [([], Ok []); ([mc_debug "polling"], Throw "Error: timeout");
            ([], Ok ({| DeviceID := PStr "D9"; attributes := [] |} :: Scenario.cloud))]
           eq_refl eq_refl).
Defined.

(** * Further properties of the handler *)

(** ** Strings and projections *)

Lemma append_length (s u : string) :
  String.length (s ^^ u) = String.length s + String.length u.
Proof. induction s as [|c s IH]; simpl; [reflexivity|now rewrite IH]. Qed.

Lemma append_inj_l (p s u : string) : p ^^ s = p ^^ u -> s = u.
Proof.
  induction p as [|c p IH]; simpl; intro H; [exact H|].
  injection H as H. now apply IH.
Qed.

Lemma append_inj_r (suffix : string) :
  forall s u : string, s ^^ suffix = u ^^ suffix -> s = u.
Proof.
  induction s as [|c s IH]; intros [|c' u] H; simpl in H.
  - reflexivity.
  - apply (f_equal String.length) in H. simpl in H. rewrite append_length in H. lia.
  - apply (f_equal String.length) in H. simpl in H. rewrite append_length in H. lia.
  - injection H as -> H. f_equal. now apply IH.
Qed.

Ltac projection_app tr1 :=
  let e := fresh "e" in
  let IH := fresh "IH" in
  induction tr1 as [|e tr1 IH]; simpl; [reflexivity|];
  destruct e; simpl; rewrite ?IH, <- ?app_assoc; reflexivity.

Lemma published_app (tr1 tr2 : list effect) :
  published (tr1 ++ tr2) = published tr1 ++ published tr2.
Proof. projection_app tr1. Qed.

Lemma started_app (tr1 tr2 : list effect) :
  started (tr1 ++ tr2) = started tr1 ++ started tr2.
Proof. projection_app tr1. Qed.

Lemma sessions_app (tr1 tr2 : list effect) :
  sessions (tr1 ++ tr2) = sessions tr1 ++ sessions tr2.
Proof. projection_app tr1. Qed.

Lemma impulses_app (tr1 tr2 : list effect) :
  impulses (tr1 ++ tr2) = impulses tr1 ++ impulses tr2.
Proof. projection_app tr1. Qed.

(** A trace of dispatch effects creates no session, starts no impulse
    generator. *)
Lemma dispatch_effects_only (tr : list effect) :
  Forall (fun e => is_dispatch_effect e = true) tr ->
  sessions tr = [] /\ impulses tr = [].
Proof.
  induction 1 as [|e tr He _ [IH1 IH2]]; [now split|].
  destruct e; try discriminate He; simpl; now split.
Qed.

Ltac listeners_only emitted :=
  let ev := fresh "ev" in
  let IH := fresh "IH" in
  induction emitted as [|ev emitted IH]; simpl; [reflexivity|];
  destruct ev; simpl; rewrite ?IH; reflexivity.

Lemma constructed_melcloud_on (n : string) (emitted : list melcloud_event) :
  constructed (flat_map (melcloud_on n) emitted) = [].
Proof. listeners_only emitted. Qed.

Lemma sessions_melcloud_on (n : string) (emitted : list melcloud_event) :
  sessions (flat_map (melcloud_on n) emitted) = [].
Proof. listeners_only emitted. Qed.

Lemma impulses_melcloud_on (n : string) (emitted : list melcloud_event) :
  impulses (flat_map (melcloud_on n) emitted) = [].
Proof. listeners_only emitted. Qed.

Lemma published_melcloud_on (n : string) (emitted : list melcloud_event) :
  published (flat_map (melcloud_on n) emitted) = [].
Proof. listeners_only emitted. Qed.

Lemma started_device_on (w : world) (n u v : string) (emitted : list device_event) :
  started (flat_map (device_on w n u v) emitted) = [].
Proof. listeners_only emitted. Qed.

Lemma published_device_on (w : world) (n u v : string) (emitted : list device_event) :
  published (flat_map (device_on w n u v) emitted) = accessories_of emitted.
Proof.
  unfold accessories_of.
  induction emitted as [|ev emitted IH]; simpl; [reflexivity|].
  rewrite published_app, IH. now destruct ev.
Qed.

Section Shape.

Variable w : world.

Lemma device_on_shape (n u v : string) (emitted : list device_event) :
  Forall (fun e => is_dispatch_effect e = true) (flat_map (device_on w n u v) emitted).
Proof.
  apply Forall_flat_map. induction emitted as [|ev emitted IH]; constructor; trivial.
  destruct ev; repeat constructor.
Qed.

Lemma start_device_shape (t : devtype) (a : account) (n : string) (ms : number)
      (f : bool) (d : device) :
  Forall (fun e => is_dispatch_effect e = true) (fst (start_device w t a n ms f d)).
Proof.
  unfold start_device. destruct (controller w t a d); simpl; repeat constructor.
  apply device_on_shape.
Qed.

Lemma for_of_shape (t : devtype) (a : account) (n : string)
      (devices : list clouddevice) (ms : number) (f : bool) (ds : list device) :
  Forall (fun e => is_dispatch_effect e = true) (fst (for_of w t a n devices ms f ds)).
Proof.
  induction ds as [|d ds IH]; [constructor|].
  rewrite for_of_cons.
  assert (Hb : Forall (fun e => is_dispatch_effect e = true)
                      (fst (loop_body w t a n devices ms f d))).
  { unfold loop_body.
    destruct (negb (deviceExistInMelCloud devices (Device.id d)) || negb (displayMode d));
      [constructor|apply start_device_shape]. }
  destruct (loop_body w t a n devices ms f d) as [here [u|e]]; simpl in Hb; [|exact Hb].
  destruct (for_of w t a n devices ms f ds) as [later r]. simpl in *.
  apply Forall_app. now split.
Qed.

Lemma try_dispatch_shape (t : devtype) (a : account) (n : string)
      (devices : list clouddevice) (ms : number) (f : bool) (ds : option (list device)) :
  Forall (fun e => is_dispatch_effect e = true) (try_dispatch w t a n devices ms f ds).
Proof.
  unfold try_dispatch. destruct ds as [l|]; [|repeat constructor].
  pose proof (for_of_shape t a n devices ms f l) as H.
  destruct (for_of w t a n devices ms f l) as [done [u|e]]; simpl in H; [exact H|].
  apply Forall_app. split; [exact H|repeat constructor].
Qed.

(** The three loops log, construct, start and publish, and do nothing else:
    no session is created, no cloud call made, no name pushed. *)
Lemma dispatch_all_shape (a : account) (n : string) (devices : list clouddevice) (f : bool) :
  Forall (fun e => is_dispatch_effect e = true) (dispatch_all w a n devices f).
Proof.
  unfold dispatch_all. rewrite !Forall_app. repeat split; apply try_dispatch_shape.
Qed.

End Shape.

(** ** The account loop as a whole *)

Section LoopFacts.

Variable w : world.

Lemma mandatory_ok_truthy (a : account) :
  mandatory_missing a = false -> truthy (name a) = true.
Proof.
  unfold mandatory_missing. destruct (truthy (name a)); [reflexivity|discriminate].
Qed.

(** The loop handles the accounts up to the first one it rejects. *)
Lemma account_loop_split (accounts : list account) :
  forall names : list jsstring,
  exists reached stopped,
    accounts = reached ++ stopped
    /\ Forall (fun a => mandatory_missing a = false) reached
    /\ NoDup (map name reached)
    /\ (forall a, In a reached -> ~ In (name a) names)
    /\ account_loop w names accounts
       = (names ++ map name reached,
          flat_map (accepted w) reached
          ++ match stopped with
             | [] => []
             | c :: _ => [rejection c]
             end)
    /\ match stopped with
       | [] => True
       | c :: _ => mandatory_missing c = true \/ In (name c) (names ++ map name reached)
       end.
Proof.
  induction accounts as [|a accounts IH]; intro names.
  - exists [], []. simpl. rewrite app_nil_r.
    split; [reflexivity|]. split; [constructor|]. split; [constructor|].
    split; [intros a []|]. split; [reflexivity|exact I].
  - destruct (mandatory_missing a) eqn:Hm.
    + exists [], (a :: accounts). simpl. rewrite app_nil_r.
      rewrite account_body_missing by exact Hm.
      unfold rejection. rewrite Hm.
      split; [reflexivity|]. split; [constructor|]. split; [constructor|].
      split; [intros b []|]. split; [reflexivity|now left].
    + destruct (includes names (name a)) eqn:Hi.
      * apply includes_In in Hi.
        exists [], (a :: accounts). simpl. rewrite app_nil_r.
        rewrite account_body_duplicate by assumption.
        unfold rejection. rewrite Hm.
        split; [reflexivity|]. split; [constructor|]. split; [constructor|].
        split; [intros b []|]. split; [reflexivity|now right].
      * apply includes_not_In in Hi.
        destruct (IH (names ++ [name a]))
          as (reached & stopped & Heq & Hok & Hnd & Hfresh & Hloop & Hstop).
        exists (a :: reached), stopped. simpl.
        rewrite account_body_accepted by assumption. rewrite Hloop.
        rewrite <- !app_assoc. simpl.
        split; [|split; [|split; [|split; [|split]]]].
        -- now rewrite Heq.
        -- now constructor.
        -- constructor; [|exact Hnd].
           intro Hin. apply in_map_iff in Hin. destruct Hin as [b [Hb Hin]].
           apply (Hfresh b Hin). rewrite Hb. apply in_or_app. right. now left.
        -- intros b [<-|Hin]; [exact Hi|].
           intro Hn. apply (Hfresh b Hin). apply in_or_app. now left.
        -- unfold accepted. simpl. now rewrite <- !app_assoc.
        -- rewrite <- app_assoc in Hstop. exact Hstop.
Qed.

(** The same for the handler, which starts from the empty [accountsName]. *)
Lemma didFinishLaunching_split (accounts : list account) :
  exists reached stopped,
    accounts = reached ++ stopped
    /\ Forall (fun a => mandatory_missing a = false) reached
    /\ NoDup (map name reached)
    /\ didFinishLaunching w accounts
       = flat_map (accepted w) reached
         ++ match stopped with
            | [] => []
            | c :: _ => [rejection c]
            end
    /\ match stopped with
       | [] => True
       | c :: _ => mandatory_missing c = true \/ In (name c) (map name reached)
       end.
Proof.
  destruct (account_loop_split accounts [])
    as (reached & stopped & Heq & Hok & Hnd & _ & Hloop & Hstop).
  exists reached, stopped. unfold didFinishLaunching. rewrite Hloop.
  split; [exact Heq|]. split; [exact Hok|]. split; [exact Hnd|].
  split; [reflexivity|exact Hstop].
Qed.

End LoopFacts.

(** X1: the handler's trace is the traces of the accounts up to the first one
    that lacks a mandatory field or repeats a name, each accepted account in
    turn, followed by the one warning for that account when there is one;
    nothing comes after the warning. *)
Theorem handler_stops_at_the_first_rejected_account (w : world) (accounts : list account) :
  exists reached stopped,
    accounts = reached ++ stopped
    /\ Forall (fun a => mandatory_missing a = false) reached
    /\ NoDup (map name reached)
    /\ didFinishLaunching w accounts
       = flat_map (accepted w) reached
         ++ match stopped with
            | [] => []
            | c :: _ => [rejection c]
            end
    /\ match stopped with
       | [] => True
       | c :: _ => mandatory_missing c = true \/ In (name c) (map name reached)
       end.
Proof. apply didFinishLaunching_split. Qed.

(** X2: whatever the configuration, [accountsName] ends without a repeated
    name and without a falsy one, and holds exactly the names pushed in the
    trace. *)
Theorem accountsName_stays_duplicate_free (w : world) (accounts : list account) :
  NoDup (fst (account_loop w [] accounts))
  /\ Forall (fun n => truthy n = true) (fst (account_loop w [] accounts))
  /\ map AccountsNamePush (fst (account_loop w [] accounts))
     = filter (fun e => match e with AccountsNamePush _ => true | _ => false end)
              (didFinishLaunching w accounts).
Proof.
  destruct (account_loop_split w accounts [])
    as (reached & stopped & Heq & Hok & Hnd & _ & Hloop & Hstop).
  unfold didFinishLaunching. rewrite Hloop. simpl.
  split; [exact Hnd|]. split.
  - apply Forall_map. revert Hok. apply Forall_impl. apply mandatory_ok_truthy.
  - rewrite filter_app.
    replace (filter _ match stopped with [] => [] | c :: _ => [rejection c] end)
      with (@nil effect).
    + rewrite app_nil_r. clear. induction reached as [|a reached IH]; [reflexivity|].
      simpl. rewrite filter_app, <- IH. f_equal.
      unfold debug_log.
      rewrite filter_app.
      replace (filter _ (try_startup w a)) with (@nil effect).
      * now destruct (nullish (enableDebugMode a) false).
      * symmetry. unfold try_startup, startup.
        assert (Hon : forall n evs,
                   filter (fun e => match e with AccountsNamePush _ => true | _ => false end)
                          (flat_map (melcloud_on n) evs) = []).
        { intros n evs. induction evs as [|ev evs IHe]; [reflexivity|].
          simpl. rewrite filter_app, IHe. now destruct ev. }
        assert (Hd : forall tr, Forall (fun e => is_dispatch_effect e = true) tr ->
                   filter (fun e => match e with AccountsNamePush _ => true | _ => false end)
                          tr = []).
        { induction 1 as [|e tr He _ IHt]; [reflexivity|].
          destruct e; try discriminate He; exact IHt. }
        destruct (connect w a) as [emitted [r|e]]; simpl.
        -- destruct (chackDevicesList w a (contextKey r)) as [emitted' [devices|e]]; simpl;
             rewrite ?filter_app, ?Hon; simpl; rewrite ?filter_app, ?Hon; simpl;
             rewrite ?filter_app, ?Hon; simpl; [|reflexivity].
           apply Hd, dispatch_all_shape.
        -- now rewrite filter_app, Hon.
    + destruct stopped as [|c ?]; [reflexivity|].
      unfold rejection, missing_warning, unique_warning.
      now destruct (mandatory_missing c).
Qed.

Section AcceptedFacts.

Variable w : world.

Lemma sessions_debug_log (a : account) : sessions (debug_log w a) = [].
Proof. unfold debug_log. now destruct (nullish (enableDebugMode a) false). Qed.

Lemma impulses_debug_log (a : account) : impulses (debug_log w a) = [].
Proof. unfold debug_log. now destruct (nullish (enableDebugMode a) false). Qed.

Lemma constructed_debug_log (a : account) : constructed (debug_log w a) = [].
Proof. unfold debug_log. now destruct (nullish (enableDebugMode a) false). Qed.

Lemma sessions_accepted (a : account) :
  sessions (accepted w a) = [prefDir w ^^ "/" ^^ ToString (name a) ^^ "_Account"].
Proof.
  unfold accepted. simpl. rewrite sessions_app, sessions_debug_log. simpl.
  unfold try_startup, startup.
  destruct (connect w a) as [emitted [r|e]]; simpl.
  - destruct (chackDevicesList w a (contextKey r)) as [emitted' [devices|e]]; simpl;
      rewrite !sessions_app, !sessions_melcloud_on; simpl;
      rewrite ?sessions_app, ?sessions_melcloud_on; simpl; [|reflexivity].
    now rewrite (proj1 (dispatch_effects_only _ (dispatch_all_shape w a _ devices _))).
  - now rewrite sessions_app, sessions_melcloud_on.
Qed.

Lemma constructed_try_dispatch_In (t : devtype) (a : account) (n : string)
      (devices : list clouddevice) (ms : number) (f : bool)
      (ds : option (list device)) (t' : devtype) (d : device) :
  In (t', d) (constructed (try_dispatch w t a n devices ms f ds)) ->
  t' = t /\ In d (listed ds) /\ dispatched devices d = true.
Proof.
  unfold try_dispatch. destruct ds as [l|]; simpl; [|intros []].
  pose proof (constructed_for_of_In w t a n devices ms f l t' d) as H.
  destruct (for_of w t a n devices ms f l) as [done [u|e]]; simpl in *; [exact H|].
  rewrite constructed_app. simpl. rewrite app_nil_r. exact H.
Qed.

Lemma constructed_dispatch_all_In (a : account) (n : string)
      (devices : list clouddevice) (f : bool) (t : devtype) (d : device) :
  In (t, d) (constructed (dispatch_all w a n devices f)) ->
  In d (listed (configured t a)) /\ dispatched devices d = true.
Proof.
  unfold dispatch_all. rewrite !constructed_app. intro H.
  apply in_app_or in H. destruct H as [H|H];
    [|apply in_app_or in H; destruct H as [H|H]];
    apply constructed_try_dispatch_In in H; destruct H as (-> & H1 & H2); now split.
Qed.

Lemma constructed_accepted_In (a : account) (t : devtype) (d : device) :
  In (t, d) (constructed (accepted w a)) ->
  exists emitted r emitted' devices,
    connect w a = (emitted, Ok r)
    /\ chackDevicesList w a (contextKey r) = (emitted', Ok devices)
    /\ In d (listed (configured t a))
    /\ dispatched devices d = true.
Proof.
  unfold accepted. simpl. rewrite constructed_app, constructed_debug_log. simpl.
  unfold try_startup, startup.
  destruct (connect w a) as [emitted [r|e]] eqn:Hc; simpl.
  - destruct (chackDevicesList w a (contextKey r)) as [emitted' [devices|e]] eqn:Hl; simpl.
    + repeat (rewrite ?constructed_app, ?constructed_melcloud_on; simpl).
      intro H. apply constructed_dispatch_all_In in H.
      exists emitted, r, emitted', devices.
      split; [reflexivity|]. split; [exact Hl|]. exact H.
    + repeat (rewrite ?constructed_app, ?constructed_melcloud_on; simpl). intros [].
  - rewrite constructed_app, constructed_melcloud_on. simpl. intros [].
Qed.

End AcceptedFacts.

(** X3: no two sessions created during one launch share an account file:
    the account files named in the [new MelCloud(...)] calls of the handler
    are pairwise distinct. *)
Theorem sessions_never_share_an_account_file (w : world) (accounts : list account) :
  NoDup (sessions (didFinishLaunching w accounts)).
Proof.
  destruct (didFinishLaunching_split w accounts)
    as (reached & stopped & _ & Hok & Hnd & -> & _).
  rewrite sessions_app.
  replace (sessions match stopped with [] => [] | c :: _ => [rejection c] end)
    with (@nil string).
  - rewrite app_nil_r.
    induction reached as [|a reached IH]; [constructor|].
    cbn [flat_map]. rewrite sessions_app, sessions_accepted. cbn [app].
    inversion Hok as [|? ? Ha Hok']; subst.
    inversion Hnd as [|? ? Hnotin Hnd']; subst.
    constructor; [|now apply IH].
    intro Hin. apply Hnotin. clear IH Hnd Hnd' Hnotin Hok.
    induction reached as [|b reached IH]; [destruct Hin|].
    cbn [flat_map] in Hin. rewrite sessions_app, sessions_accepted in Hin.
    cbn [app In] in Hin.
    inversion Hok' as [|? ? Hb Hok'']; subst.
    destruct Hin as [Heq|Hin]; [left|right; now apply IH].
    apply append_inj_l, append_inj_l, append_inj_r in Heq.
    apply mandatory_ok_truthy in Ha, Hb.
    destruct (name a) as [s|], (name b) as [u|]; try discriminate.
    simpl in Heq. now subst.
  - destruct stopped as [|c ?]; [reflexivity|].
    unfold rejection, missing_warning, unique_warning.
    now destruct (mandatory_missing c).
Qed.

(** X4: for an accepted account, the impulse generator is started exactly
    when [connect] and the first [chackDevicesList] both succeed, then once,
    with the timers of the account; a failure of either call leaves it
    unstarted. *)
Theorem impulse_generator_starts_after_both_calls (w : world) (a : account) :
  impulses (accepted w a)
  = match connect w a with
    | (_, Ok r) =>
        match chackDevicesList w a (contextKey r) with
        | (_, Ok _) => [(ToString (name a), timers a)]
        | (_, Throw _) => []
        end
    | (_, Throw _) => []
    end.
Proof.
  unfold accepted. simpl. rewrite impulses_app, impulses_debug_log. simpl.
  unfold try_startup, startup.
  destruct (connect w a) as [emitted [r|e]]; simpl.
  - destruct (chackDevicesList w a (contextKey r)) as [emitted' [devices|e]]; simpl;
      rewrite !impulses_app, !impulses_melcloud_on; simpl;
      rewrite ?impulses_app, ?impulses_melcloud_on; simpl; [|reflexivity].
    now rewrite (proj2 (dispatch_effects_only _ (dispatch_all_shape w a _ devices _))).
  - now rewrite impulses_app, impulses_melcloud_on.
Qed.

(** X5: every controller the handler constructs is for a device that is in
    the list of its type in the configuration of an account with all
    mandatory fields, whose [connect] and [chackDevicesList] succeeded, with
    [displayMode > 0] and an id that the returned list contains. *)
Theorem every_controller_is_accounted_for
        (w : world) (accounts : list account) (t : devtype) (d : device) :
  In (t, d) (constructed (didFinishLaunching w accounts)) ->
  exists a emitted r emitted' devices,
    In a accounts
    /\ mandatory_missing a = false
    /\ connect w a = (emitted, Ok r)
    /\ chackDevicesList w a (contextKey r) = (emitted', Ok devices)
    /\ In d (listed (configured t a))
    /\ enabled d
    /\ present devices d.
Proof.
  destruct (didFinishLaunching_split w accounts)
    as (reached & stopped & Heq & Hok & _ & -> & _).
  rewrite constructed_app. intro H. apply in_app_or in H. destruct H as [H|H].
  - assert (Ha : exists a, In a reached /\ In (t, d) (constructed (accepted w a))).
    { clear Heq Hok. induction reached as [|a reached IH]; [destruct H|].
      cbn [flat_map] in H. rewrite constructed_app in H. apply in_app_or in H.
      destruct H as [H|H].
      - exists a. split; [now left|exact H].
      - destruct (IH H) as [b [Hb Hin]]. exists b. split; [now right|exact Hin]. }
    destruct Ha as [a [Hin Hc]].
    apply constructed_accepted_In in Hc.
    destruct Hc as (emitted & r & emitted' & devices & Hc & Hl & Hd & Hg).
    apply dispatched_iff in Hg. destruct Hg as [He Hp].
    exists a, emitted, r, emitted', devices.
    split; [subst accounts; apply in_or_app; now left|].
    split; [now apply (proj1 (Forall_forall _ _) Hok)|].
    tauto.
  - destruct stopped as [|c ?]; [destruct H|].
    unfold rejection, missing_warning, unique_warning in H.
    destruct (mandatory_missing c); destruct H.
Qed.

(** ** The dispatch loops, further *)

Section LoopClaims.

Variable w : world.
Variable t : devtype.
Variable a : account.
Variable accountName : string.
Variable devices : list clouddevice.
Variable ms : number.
Variable f : bool.

Lemma started_start (d : device) :
  started (fst (start_device w t a accountName ms f d))
  = match controller w t a d with
    | ConstructorThrows _ => []
    | Constructed _ _ => [(t, d)]
    end.
Proof.
  unfold start_device. destruct (controller w t a d); simpl; [reflexivity|].
  now rewrite started_device_on.
Qed.

Lemma published_start (d : device) :
  published (fst (start_device w t a accountName ms f d))
  = flat_map (emitted_accessories w t a)
             (map snd (started (fst (start_device w t a accountName ms f d)))).
Proof.
  rewrite started_start. unfold start_device.
  destruct (controller w t a d) as [e|emitted r] eqn:Hc; simpl; [reflexivity|].
  unfold emitted_accessories. rewrite Hc.
  now rewrite published_device_on, app_nil_r.
Qed.

(** X6: a loop over devices of which none is both enabled and known to the
    cloud has no effect at all: no controller, no log line, no error; so it
    is with every list when the cloud's list is empty. *)
Theorem nothing_to_dispatch_leaves_no_trace (ds : list device) :
  (forall d, In d ds -> ~ (enabled d /\ present devices d)) ->
  try_dispatch w t a accountName devices ms f (Some ds) = [].
Proof.
  intro H. unfold try_dispatch.
  assert (Hl : for_of w t a accountName devices ms f ds = ([], Ok tt)).
  { induction ds as [|d ds IH]; [reflexivity|].
    rewrite for_of_cons, loop_body_skipped, IH; [reflexivity| |].
    - intros d' Hin. apply H. now right.
    - destruct (dispatched devices d) eqn:Hd; [|reflexivity].
      apply dispatched_iff in Hd. exfalso. apply (H d); [now left|exact Hd]. }
  now rewrite Hl.
Qed.

(** X7: when the controller of every device that is not skipped is
    constructed and starts without throwing, the loop ends normally, no error
    line is added, and the controllers constructed and started are exactly
    the enabled devices known to the cloud, in the order of the list. *)
Theorem all_controllers_start_when_none_throws (ds : list device) :
  (forall d, In d ds -> dispatched devices d = true ->
             exists emitted, controller w t a d = Constructed emitted (Ok tt)) ->
  try_dispatch w t a accountName devices ms f (Some ds)
  = fst (for_of w t a accountName devices ms f ds)
  /\ snd (for_of w t a accountName devices ms f ds) = Ok tt
  /\ constructed (try_dispatch w t a accountName devices ms f (Some ds))
     = map (pair t) (filter (dispatched devices) ds)
  /\ started (try_dispatch w t a accountName devices ms f (Some ds))
     = map (pair t) (filter (dispatched devices) ds).
Proof.
  intro H.
  assert (Hl : snd (for_of w t a accountName devices ms f ds) = Ok tt
               /\ constructed (fst (for_of w t a accountName devices ms f ds))
                  = map (pair t) (filter (dispatched devices) ds)
               /\ started (fst (for_of w t a accountName devices ms f ds))
                  = map (pair t) (filter (dispatched devices) ds)).
  { induction ds as [|d ds IH]; [now repeat split|].
    destruct IH as (IH1 & IH2 & IH3); [intros d' Hin; apply H; now right|].
    rewrite for_of_cons. simpl filter.
    destruct (dispatched devices d) eqn:Hd.
    - rewrite loop_body_dispatched by exact Hd.
      destruct (H d (or_introl eq_refl) Hd) as [emitted Hc].
      pose proof (constructed_start w t a accountName ms f d) as Hcs.
      pose proof (started_start d) as Hss.
      unfold start_device in *. rewrite Hc in *. simpl in Hcs, Hss.
      destruct (for_of w t a accountName devices ms f ds) as [later r].
      simpl in *. subst r.
      split; [reflexivity|].
      rewrite constructed_app, started_app, constructed_device_on, started_device_on.
      simpl. now rewrite IH2, IH3.
    - rewrite loop_body_skipped by exact Hd.
      destruct (for_of w t a accountName devices ms f ds) as [later r].
      simpl in *. now repeat split. }
  destruct Hl as (H1 & H2 & H3). unfold try_dispatch.
  destruct (for_of w t a accountName devices ms f ds) as [done r].
  simpl in *. subst r. now repeat split.
Qed.

(** X8: an id is matched with [===]: when every id of the cloud's list is a
    number, a configured device whose id is a string is skipped without a
    trace, whatever its digits and its [displayMode]. *)
Theorem string_id_never_matches_numeric_ids (d : device) (s : string) :
  (forall dev, In dev devices -> exists z, DeviceID dev = PNum z) ->
  Device.id d = PStr s ->
  loop_body w t a accountName devices ms f d = ([], Ok tt).
Proof.
  intros Hnum Hid. apply loop_body_skipped.
  destruct (dispatched devices d) eqn:Hd; [|reflexivity].
  apply dispatched_iff in Hd. destruct Hd as [_ [dev [Hin Heq]]].
  destruct (Hnum dev Hin) as [z Hz]. congruence.
Qed.

(** X9: the accessories handed to [api.publishExternalAccessories] by a loop
    are those that the controllers whose [start] was called emitted with
    [publishAccessory], each once, controller after controller, in the order
    emitted. *)
Theorem published_accessories_are_those_emitted (ds : list device) :
  published (fst (for_of w t a accountName devices ms f ds))
  = flat_map (emitted_accessories w t a)
             (map snd (started (fst (for_of w t a accountName devices ms f ds)))).
Proof.
  induction ds as [|d ds IH]; [reflexivity|].
  rewrite for_of_cons.
  assert (Hb : published (fst (loop_body w t a accountName devices ms f d))
               = flat_map (emitted_accessories w t a)
                   (map snd (started (fst (loop_body w t a accountName devices ms f d))))).
  { unfold loop_body.
    destruct (negb (deviceExistInMelCloud devices (Device.id d)) || negb (displayMode d));
      [reflexivity|apply published_start]. }
  destruct (loop_body w t a accountName devices ms f d) as [here [u|e]];
    simpl in Hb; [|exact Hb].
  destruct (for_of w t a accountName devices ms f ds) as [later r]. simpl in *.
  now rewrite published_app, started_app, map_app, flat_map_app, Hb, IH.
Qed.

(** X10: [start] is called on every controller that was constructed, in the
    same order, except on the last one when its constructor threw; a loop
    that ends normally has started all it constructed. *)
Theorem start_follows_every_construction (ds : list device) :
  exists last,
    constructed (fst (for_of w t a accountName devices ms f ds))
    = started (fst (for_of w t a accountName devices ms f ds)) ++ last
    /\ List.length last <= 1
    /\ (snd (for_of w t a accountName devices ms f ds) = Ok tt -> last = []).
Proof.
  induction ds as [|d ds (last & IH1 & IH2 & IH3)].
  - exists []. simpl. split; [reflexivity|]. split; [lia|reflexivity].
  - rewrite for_of_cons. unfold loop_body.
    destruct (negb (deviceExistInMelCloud devices (Device.id d)) || negb (displayMode d)).
    + destruct (for_of w t a accountName devices ms f ds) as [later r].
      exists last. simpl in *. split; [exact IH1|]. split; [exact IH2|exact IH3].
    + pose proof (constructed_start w t a accountName ms f d) as Hcs.
      pose proof (started_start d) as Hss.
      unfold start_device in *.
      destruct (controller w t a d) as [e|emitted [u|e]]; simpl in Hcs, Hss.
      * exists [(t, d)]. simpl. split; [reflexivity|]. split; [lia|discriminate].
      * destruct (for_of w t a accountName devices ms f ds) as [later r].
        exists last. simpl in *.
        rewrite constructed_app, started_app, constructed_device_on, started_device_on.
        simpl. rewrite IH1. split; [reflexivity|]. split; [exact IH2|exact IH3].
      * exists []. simpl.
        rewrite constructed_device_on, started_device_on.
        split; [reflexivity|]. split; [simpl; lia|discriminate].
Qed.

End LoopClaims.

(** ** The debug copy, further *)

Lemma obj_set_fresh (k : string) (v : json) (o : obj) :
  ~ In k (map fst o) -> obj_set k v o = o ++ [(k, v)].
Proof.
  induction o as [|[k0 v0] o IH]; simpl; intro H; [reflexivity|].
  destruct (String.eqb_spec k0 k) as [->|Hne]; [exfalso; apply H; now left|].
  rewrite IH; [reflexivity|]. intro Hin. apply H. now right.
Qed.

Lemma obj_set_present (k : string) (v : json) (o : obj) :
  In k (map fst o) -> map fst (obj_set k v o) = map fst o.
Proof.
  induction o as [|[k0 v0] o IH]; simpl; intro H; [destruct H|].
  destruct (String.eqb_spec k0 k) as [->|Hne]; simpl; [reflexivity|].
  rewrite IH; [reflexivity|]. destruct H as [H|H]; [contradiction|exact H].
Qed.

Lemma obj_get_set_other (k k' : string) (v : json) (o : obj) :
  k' <> k -> obj_get k' (obj_set k v o) = obj_get k' o.
Proof.
  intro Hne. induction o as [|[k0 v0] o IH]; simpl.
  - destruct (String.eqb_spec k k'); [congruence|reflexivity].
  - destruct (String.eqb_spec k0 k) as [->|Hk]; simpl.
    + destruct (String.eqb_spec k k'); [congruence|reflexivity].
    + now rewrite IH.
Qed.

(** Spreading an object into one it shares no property with appends it. *)
Lemma spread_disjoint (o : obj) :
  forall acc : obj, unique_keys (acc ++ o) -> spread o acc = acc ++ o.
Proof.
  unfold spread, unique_keys.
  induction o as [|[k v] o IH]; intros acc H; simpl.
  - now rewrite app_nil_r.
  - rewrite obj_set_fresh.
    + rewrite IH; rewrite <- app_assoc; [reflexivity|exact H].
    + rewrite map_app in H. simpl in H. apply NoDup_remove_2 in H.
      intro Hin. apply H. apply in_or_app. now left.
Qed.

(** X11: for an account whose [mqtt] object is given, the logged copy's
    [mqtt] is that object with [passwd] set to 'removed' and nothing else
    touched: every other property keeps its value, the properties keep their
    order, and [passwd] keeps its place when the object has one and goes last
    when it has none. *)
Theorem debug_copy_keeps_the_rest_of_mqtt (a : account) (m : obj) :
  mqtt a = Some m ->
  unique_keys m ->
  mqtt (debugData a) = Some (obj_set "passwd" (JStr "removed") m)
  /\ (forall k, k <> "passwd" ->
      obj_get k (obj_set "passwd" (JStr "removed") m) = obj_get k m)
  /\ (In "passwd" (map fst m) ->
      map fst (obj_set "passwd" (JStr "removed") m) = map fst m)
  /\ (~ In "passwd" (map fst m) ->
      obj_set "passwd" (JStr "removed") m = m ++ [("passwd", JStr "removed")]).
Proof.
  intros Hm Hu. split; [|split; [|split]].
  - unfold debugData. simpl. rewrite Hm. simpl.
    now rewrite (spread_disjoint m []).
  - intros k Hk. now apply obj_get_set_other.
  - apply obj_set_present.
  - apply obj_set_fresh.
Qed.

(** ** Rejected accounts and passwords *)

(** X12: what the handler does with an account it rejects does not depend on
    the value of its password: two accounts that differ only in their
    (non-empty) passwords are accepted or rejected alike, and when rejected
    leave the same warning and the same [accountsName]. *)
Theorem rejection_does_not_depend_on_the_password
        (w : world) (names : list jsstring) (a1 a2 : account) :
  differ_only_in_passwords a1 a2 ->
  truthy (passwd a1) = true ->
  truthy (passwd a2) = true ->
  snd (account_body w names a1) = snd (account_body w names a2)
  /\ fst (fst (account_body w names a1)) = fst (fst (account_body w names a2))
  /\ (snd (account_body w names a1) = Return ->
      snd (fst (account_body w names a1)) = snd (fst (account_body w names a2))).
Proof.
  intros (Hn & Hu & Hl & _) H1 H2.
  assert (Hm : mandatory_missing a1 = mandatory_missing a2).
  { unfold mandatory_missing. now rewrite Hn, Hu, Hl, H1, H2. }
  unfold account_body. rewrite <- Hm, <- Hn.
  destruct (mandatory_missing a1).
  - simpl. repeat split. intros _.
    unfold missing_warning, ok_or. now rewrite Hn, Hu, Hl, H1, H2.
  - destruct (includes names (name a1)); simpl.
    + repeat split. intros _. unfold unique_warning. now rewrite Hn.
    + repeat split. discriminate.
Qed.

(** ** Intervals *)

(** X13: whatever the configuration holds, the sampling of the timer given to
    the impulse generator and the refresh interval given to the controllers
    are numbers other than 0, never [NaN]. *)
Theorem intervals_are_never_zero_or_NaN (a : account) :
  Forall (fun tm => exists z, sampling tm = Num z /\ z <> 0%Z) (timers a)
  /\ exists z, deviceRefreshInterval_ms a = Num z /\ z <> 0%Z.
Proof.
  assert (H : forall x d, d <> 0%Z ->
              exists z, or_number (mul (ToNumber x) (Num 1000)) (Num d) = Num z /\ z <> 0%Z).
  { intros x d Hd. unfold or_number.
    destruct (mul (ToNumber x) (Num 1000)) as [|z] eqn:Hx; simpl.
    - now exists d.
    - destruct (Z.eqb_spec z 0); simpl; [now exists d|now exists z]. }
  split.
  - repeat constructor. simpl. apply H. discriminate.
  - apply H. discriminate.
Qed.

(** ** The platform object *)

Lemma restore_appends (cached : list string) :
  forall (p : platform) (l : list string),
    accessories p = Some l ->
    restore p cached = Some {| accessories := Some (l ++ cached); handler := handler p |}.
Proof.
  induction cached as [|x cached IH]; intros p l H; simpl.
  - rewrite app_nil_r. destruct p. simpl in *. now subst.
  - unfold configureAccessory. rewrite H.
    rewrite (IH {| accessories := Some (l ++ [x]); handler := handler p |}
                (l ++ [x]) eq_refl).
    simpl. now rewrite <- app_assoc.
Qed.

(** X14: once the constructor has found an array of accounts, the accessories
    that the host hands to [configureAccessory] are kept, all of them, in the
    order given, also when the directory could not be made; they change
    nothing of what the handler does at launch. *)
Theorem cached_accessories_are_kept_in_order
        (w : world) (accounts : list account) (mkdirSync : result unit)
        (cached : list string) :
  exists p,
    restore (snd (MelCloudPlatform w (Accounts accounts) mkdirSync)) cached = Some p
    /\ accessories p = Some cached
    /\ launch w p = launch w (snd (MelCloudPlatform w (Accounts accounts) mkdirSync))
    /\ launch w p
       = match mkdirSync with
         | Ok _ => didFinishLaunching w accounts
         | Throw _ => []
         end.
Proof.
  eexists. split.
  - apply restore_appends with (l := []). now destruct mkdirSync.
  - simpl. repeat split; now destruct mkdirSync.
Qed.

(** X15: without a configuration, or with one that has no array of accounts,
    the constructor logs one warning and returns before [this.accessories] is
    assigned: no handler is registered, the launch does nothing, and any call
    of [configureAccessory] throws. *)
Theorem without_configuration_configureAccessory_throws
        (w : world) (c : config) (mkdirSync : result unit) (accessory : string) :
  c = NoConfig \/ c = NoAccounts ->
  fst (MelCloudPlatform w c mkdirSync)
  = [Log log_warn ("No configuration found for " ^^ PluginName w)]
  /\ launch w (snd (MelCloudPlatform w c mkdirSync)) = []
  /\ configureAccessory (snd (MelCloudPlatform w c mkdirSync)) accessory = None.
Proof. intros [->| ->]; now repeat split. Qed.

(** ** The further theorems at work *)

Lemma every_controller_is_accounted_for_witness :
  In (ATA, Scenario.living) (constructed (didFinishLaunching Scenario.w [Scenario.home]))
  /\ exists a emitted r emitted' devices,
      In a [Scenario.home]
      /\ mandatory_missing a = false
      /\ connect Scenario.w a = (emitted, Ok r)
      /\ chackDevicesList Scenario.w a (contextKey r) = (emitted', Ok devices)
      /\ In Scenario.living (listed (configured ATA a))
      /\ enabled Scenario.living
      /\ present devices Scenario.living.
Proof.
  assert (H : In (ATA, Scenario.living)
                 (constructed (didFinishLaunching Scenario.w [Scenario.home])))
    by (left; reflexivity).
  split; [exact H|].
  exact (every_controller_is_accounted_for
           Scenario.w [Scenario.home] ATA Scenario.living H).
Defined.

Lemma nothing_to_dispatch_leaves_no_trace_witness :
  (forall d, In d [Scenario.hidden; Scenario.living] -> ~ (enabled d /\ present [] d))
  /\ try_dispatch Scenario.w ATA Scenario.home "Home" [] (Num 5000) false
                  (Some [Scenario.hidden; Scenario.living])
     = [].
Proof.
  assert (H : forall d, In d [Scenario.hidden; Scenario.living] ->
                        ~ (enabled d /\ present [] d)).
  { intros d _ [_ [dev [[] _]]]. }
  split; [exact H|].
  exact (nothing_to_dispatch_leaves_no_trace
           Scenario.w ATA Scenario.home "Home" [] (Num 5000) false
           [Scenario.hidden; Scenario.living] H).
Defined.

Lemma all_controllers_start_when_none_throws_witness :
  (forall d, In d [Scenario.living; Scenario.hidden; Scenario.bedroom] ->
             dispatched Scenario.cloud d = true ->
             exists emitted,
               controller Scenario.w ATA Scenario.home d = Constructed emitted (Ok tt))
  /\ started (try_dispatch Scenario.w ATA Scenario.home "Home" Scenario.cloud
                           (Num 5000) false
                           (Some [Scenario.living; Scenario.hidden; Scenario.bedroom]))
     = map (pair ATA)
           (filter (dispatched Scenario.cloud)
                   [Scenario.living; Scenario.hidden; Scenario.bedroom]).
Proof.
  assert (H : forall d, In d [Scenario.living; Scenario.hidden; Scenario.bedroom] ->
                dispatched Scenario.cloud d = true ->
                exists emitted,
                  controller Scenario.w ATA Scenario.home d = Constructed emitted (Ok tt)).
  { intros d [<-|[<-|[<-|[]]]] _; eexists; reflexivity. }
  split; [exact H|].
  exact (proj2 (proj2 (proj2
           (all_controllers_start_when_none_throws
              Scenario.w ATA Scenario.home "Home" Scenario.cloud (Num 5000) false
              [Scenario.living; Scenario.hidden; Scenario.bedroom] H)))).
Defined.

Lemma string_id_never_matches_numeric_ids_witness :
  (forall dev, In dev Numeric.cloud -> exists z, DeviceID dev = PNum z)
  /\ Device.id Numeric.quoted = PStr "101"
  /\ loop_body Scenario.w ATA Scenario.home "Home" Numeric.cloud (Num 5000) false
               Numeric.quoted
     = ([], Ok tt).
Proof.
  assert (H : forall dev, In dev Numeric.cloud -> exists z, DeviceID dev = PNum z).
  { intros dev [<-|[<-|[]]]; eexists; reflexivity. }
  split; [exact H|]. split; [reflexivity|].
  exact (string_id_never_matches_numeric_ids
           Scenario.w ATA Scenario.home "Home" Numeric.cloud (Num 5000) false
           Numeric.quoted "101" H eq_refl).
Defined.

Lemma debug_copy_keeps_the_rest_of_mqtt_witness :
  mqtt (Scenario.debugged "pw1" "m1")
  = Some [("host", JStr "broker"); ("passwd", JStr "m1"); ("port", JNum 1883)]
  /\ unique_keys [("host", JStr "broker"); ("passwd", JStr "m1"); ("port", JNum 1883)]
  /\ mqtt (debugData (Scenario.debugged "pw1" "m1"))
     = Some (obj_set "passwd" (JStr "removed")
                     [("host", JStr "broker"); ("passwd", JStr "m1"); ("port", JNum 1883)]).
Proof.
  assert (Hu : unique_keys [("host", JStr "broker"); ("passwd", JStr "m1");
                            ("port", JNum 1883)]).
  { unfold unique_keys. simpl.
    repeat constructor; simpl; intuition discriminate. }
  split; [reflexivity|]. split; [exact Hu|].
  exact (proj1 (debug_copy_keeps_the_rest_of_mqtt
                  (Scenario.debugged "pw1" "m1") _ eq_refl Hu)).
Defined.

Lemma rejection_does_not_depend_on_the_password_witness :
  let a1 := Scenario.mk_account (Some "Home") (Some "bob") (Some "pw1") [] [] in
  let a2 := Scenario.mk_account (Some "Home") (Some "bob") (Some "pw2") [] [] in
  differ_only_in_passwords a1 a2
  /\ truthy (passwd a1) = true
  /\ truthy (passwd a2) = true
  /\ snd (account_body Scenario.w [Some "Home"] a1) = Return
  /\ snd (fst (account_body Scenario.w [Some "Home"] a1))
     = snd (fst (account_body Scenario.w [Some "Home"] a2)).
Proof.
  intros a1 a2.
  assert (Hd : differ_only_in_passwords a1 a2).
  { unfold differ_only_in_passwords. simpl. repeat (split; [reflexivity|]). exact I. }
  split; [exact Hd|]. split; [reflexivity|]. split; [reflexivity|].
  split; [reflexivity|].
  exact (proj2 (proj2 (rejection_does_not_depend_on_the_password
                         Scenario.w [Some "Home"] a1 a2 Hd eq_refl eq_refl))
               eq_refl).
Defined.

Lemma without_configuration_configureAccessory_throws_witness :
  (NoConfig = NoConfig \/ NoConfig = NoAccounts)
  /\ configureAccessory (snd (MelCloudPlatform Scenario.w NoConfig (Ok tt))) "cached" = None.
Proof.
  split; [now left|].
  exact (proj2 (proj2 (without_configuration_configureAccessory_throws
                         Scenario.w NoConfig (Ok tt) "cached" (or_introl eq_refl)))).
Defined.

(** * Connection failures, debug output and reserved names in whole runs *)


(** With debugging on, the account password 'pw1' gives the two debug lines,
    the account password '' gives the warning for a missing field and no
    debug line: the two runs differ only in a password value and not in that
    alone. *)
Lemma empty_password_changes_the_debug_output :
  differ_only_in_passwords (Scenario.debugged "pw1" "m1") (Scenario.debugged "" "m1")
  /\ enableDebugMode (Scenario.debugged "" "m1") = Some true
  /\ In (Log log_info
           "Account: Home, Config: {name: Home, passwd: removed, mqtt.passwd: removed}")
        (didFinishLaunching Scenario.w [Scenario.debugged "pw1" "m1"])
  /\ didFinishLaunching Scenario.w [Scenario.debugged "" "m1"]
     = [Log log_warn "Name: OK, user: OK, password: , language: OK in config missing."].
Proof.
  split.
  - unfold differ_only_in_passwords. simpl. repeat (split; [reflexivity|]).
    repeat constructor.
  - split; [reflexivity|]. split; [|reflexivity].
    vm_compute. tauto.
Qed.

Lemma debug_log_lines (w : world) (a : account) :
  debug_log w a
  = if nullish (enableDebugMode a) false
    then [Log log_info ("Account: " ^^ ToString (name a) ^^ ", did finish launching.");
          Log log_info ("Account: " ^^ ToString (name a) ^^ ", Config: "
                        ^^ JSON_stringify w (debugData a))]
    else [].
Proof. unfold debug_log. now destruct (nullish (enableDebugMode a) false). Qed.

(** C9, in the form the code satisfies:
    the configuration that the debug line shows is the account with [passwd]
    set to 'removed' and with 'removed' as the [passwd] of its [mqtt] object,
    everything else as configured.  Two accounts that differ only in these
    two passwords, the account password not empty in either, are handled
    alike wherever they stand in the loop: both rejected with the same
    warning and no debug line, or both accepted with the same debug lines,
    first in their part of the trace; so it is in the run of the handler on
    configurations that begin with one or the other. *)
Theorem debug_configuration_hides_passwords
        (w : world) (names : list jsstring) (a1 a2 : account) (rest : list account) :
  differ_only_in_passwords a1 a2 ->
  truthy (passwd a1) = true ->
  truthy (passwd a2) = true ->
  let lines :=
    if nullish (enableDebugMode a1) false
    then [Log log_info ("Account: " ^^ ToString (name a1) ^^ ", did finish launching.");
          Log log_info ("Account: " ^^ ToString (name a1) ^^ ", Config: "
                        ^^ JSON_stringify w (debugData a1))]
    else [] in
  passwd (debugData a1) = Some "removed"
  /\ (exists m,
        mqtt (debugData a1) = Some m
        /\ obj_get "passwd" m = Some (JStr "removed")
        /\ (forall k, k <> "passwd" -> obj_get k m = obj_get k (spread_opt (mqtt a1)))
        /\ (forall m0, mqtt a1 = Some m0 -> unique_keys m0 ->
            m = obj_set "passwd" (JStr "removed") m0))
  /\ (name (debugData a1) = name a1
      /\ user (debugData a1) = user a1
      /\ language (debugData a1) = language a1
      /\ enableDebugMode (debugData a1) = enableDebugMode a1
      /\ refreshInterval (debugData a1) = refreshInterval a1
      /\ deviceRefreshInterval (debugData a1) = deviceRefreshInterval a1
      /\ ataDevices (debugData a1) = ataDevices a1
      /\ atwDevices (debugData a1) = atwDevices a1
      /\ ervDevices (debugData a1) = ervDevices a1
      /\ others (debugData a1) = others a1)
  /\ debugData a1 = debugData a2
  /\ ((account_body w names a1 = (names, [rejection a1], Return)
       /\ account_body w names a2 = (names, [rejection a1], Return))
      \/ (account_body w names a1
          = (names ++ [name a1],
             AccountsNamePush (name a1) :: lines ++ try_startup w a1, Next)
          /\ account_body w names a2
             = (names ++ [name a1],
                AccountsNamePush (name a1) :: lines ++ try_startup w a2, Next)))
  /\ ((didFinishLaunching w (a1 :: rest) = [rejection a1]
       /\ didFinishLaunching w (a2 :: rest) = [rejection a1])
      \/ (didFinishLaunching w (a1 :: rest)
          = AccountsNamePush (name a1)
            :: lines ++ try_startup w a1 ++ snd (account_loop w [name a1] rest)
          /\ didFinishLaunching w (a2 :: rest)
             = AccountsNamePush (name a1)
               :: lines ++ try_startup w a2 ++ snd (account_loop w [name a1] rest))).
Proof.
  intros Hdiff H1 H2 lines.
  pose proof (debugData_eq a1 a2 Hdiff) as Heq.
  destruct Hdiff as (Hn & Hu & Hl & He & _).
  assert (Hm : mandatory_missing a2 = mandatory_missing a1).
  { unfold mandatory_missing. now rewrite Hn, Hu, Hl, H1, H2. }
  assert (Hr : rejection a2 = rejection a1).
  { unfold rejection, missing_warning, unique_warning, ok_or.
    now rewrite Hm, Hn, Hu, Hl, H1, H2. }
  assert (Hd1 : debug_log w a1 = lines) by apply debug_log_lines.
  assert (Hd2 : debug_log w a2 = lines).
  { rewrite debug_log_lines. unfold lines. now rewrite <- Hn, <- He, Heq. }
  assert (Hbody : forall l,
             (account_body w l a1 = (l, [rejection a1], Return)
              /\ account_body w l a2 = (l, [rejection a1], Return))
             \/ (account_body w l a1
                 = (l ++ [name a1],
                    AccountsNamePush (name a1) :: lines ++ try_startup w a1, Next)
                 /\ account_body w l a2
                    = (l ++ [name a1],
                       AccountsNamePush (name a1) :: lines ++ try_startup w a2, Next))).
  { intro l. destruct (mandatory_missing a1) eqn:M1.
    - left. rewrite !account_body_missing by congruence.
      rewrite <- Hr at 2. unfold rejection. rewrite Hm, M1. now split.
    - destruct (includes l (name a1)) eqn:I1.
      + apply includes_In in I1. left.
        rewrite !account_body_duplicate by congruence.
        rewrite <- Hr at 2. unfold rejection. rewrite Hm, M1. now split.
      + apply includes_not_In in I1. right.
        rewrite !account_body_accepted by congruence.
        unfold accepted. rewrite Hd1, Hd2, <- Hn. now split. }
  split; [reflexivity|]. split; [|split; [|split; [exact Heq|split; [apply Hbody|]]]].
  - eexists. split; [reflexivity|]. split; [apply obj_get_set|]. split.
    + intros k Hk. now apply obj_get_set_other.
    + intros m0 Hm0 Hu0. rewrite Hm0. simpl. now rewrite (spread_disjoint m0 []).
  - now repeat split.
  - unfold didFinishLaunching. cbn [account_loop].
    destruct (Hbody []) as [[B1 B2]|[B1 B2]]; rewrite B1, B2.
    + left. now split.
    + right. cbn [app].
      destruct (account_loop w [name a1] rest) as [names' later]. simpl.
      rewrite <- !app_assoc. now split.
Qed.

Lemma debug_configuration_hides_passwords_witness :
  differ_only_in_passwords (Scenario.debugged "pw1" "m1") (Scenario.debugged "pw2" "m2")
  /\ truthy (passwd (Scenario.debugged "pw1" "m1")) = true
  /\ truthy (passwd (Scenario.debugged "pw2" "m2")) = true
  /\ debugData (Scenario.debugged "pw1" "m1") = debugData (Scenario.debugged "pw2" "m2")
  /\ account_body Scenario.w [] (Scenario.debugged "pw2" "m2")
     = ([Some "Home"],
        AccountsNamePush (Some "Home")
        :: [Log log_info "Account: Home, did finish launching.";
            Log log_info
              "Account: Home, Config: {name: Home, passwd: removed, mqtt.passwd: removed}"]
        ++ try_startup Scenario.w (Scenario.debugged "pw2" "m2"),
        Next).
Proof.
  assert (Hd : differ_only_in_passwords (Scenario.debugged "pw1" "m1")
                                        (Scenario.debugged "pw2" "m2")).
  { unfold differ_only_in_passwords. simpl. repeat (split; [reflexivity|]).
    repeat constructor; simpl;
      try (intros _; reflexivity);
      intro H; exfalso; apply H; reflexivity. }
  split; [exact Hd|]. split; [reflexivity|]. split; [reflexivity|].
  destruct (debug_configuration_hides_passwords
              Scenario.w [] (Scenario.debugged "pw1" "m1") (Scenario.debugged "pw2" "m2")
              [] Hd eq_refl eq_refl)
    as (_ & _ & _ & Heq & [[B1 _]|[_ B2]] & _).
  - discriminate B1.
  - split; [exact Heq|exact B2].
Defined.

Lemma name_is_reserved_before_connect_witness :
  mandatory_missing Scenario.cabin = false
  /\ mandatory_missing Scenario.cabin_again = false
  /\ name Scenario.cabin_again = name Scenario.cabin
  /\ snd (startup Scenario.w Scenario.cabin) = Throw "Error: login failed"
  /\ Forall (fun c => mandatory_missing c = false)
            ([Scenario.home] ++ Scenario.cabin :: [Scenario.office])
  /\ NoDup (map name ([Scenario.home] ++ Scenario.cabin :: [Scenario.office]))
  /\ didFinishLaunching Scenario.w
       ([Scenario.home] ++ Scenario.cabin
          :: [Scenario.office] ++ Scenario.cabin_again :: [Scenario.workshop])
     = flat_map (accepted Scenario.w)
                ([Scenario.home] ++ Scenario.cabin :: [Scenario.office])
       ++ [unique_warning Scenario.cabin_again].
Proof.
  assert (Hok : Forall (fun c => mandatory_missing c = false)
                       ([Scenario.home] ++ Scenario.cabin :: [Scenario.office]))
    by (repeat constructor).
  assert (Hnd : NoDup (map name ([Scenario.home] ++ Scenario.cabin :: [Scenario.office]))).
  { repeat constructor; simpl; intuition discriminate. }
  split; [reflexivity|]. split; [reflexivity|]. split; [reflexivity|].
  split; [reflexivity|]. split; [exact Hok|]. split; [exact Hnd|].
  exact (proj2 (proj2 (proj2
           (name_is_reserved_before_connect
              Scenario.w Scenario.cabin Scenario.cabin_again eq_refl eq_refl eq_refl)))
           [Scenario.home] [Scenario.office] [Scenario.workshop] Hok Hnd).
Defined.
